(** * Keyglove: motion support for the hand-mounted MPU-6050

    A shallow embedding of [support_motion_mpu6050_hand.h] and the
    properties of its interrupt latch, mode controller, smoothing filter,
    event encoder and dispatch gate.

    Part I holds the definitions:
    - [MachineInt]: the C integer types the file computes with;
    - [Double]: the IEEE-754 operations of the smoothing filter, over the
      Standard Library's executable specification of binary floats;
    - the module state, the collaborators' calls as a trace of effects,
      and the four functions of the source file;
    - the reference definitions the properties compare the code with.

    Part II holds the lemmas: first that the filter's floating-point
    operations are exact, then the properties of the functions. *)

From Stdlib Require Import ZArith QArith Lia List Bool.
From Stdlib Require Import Floats.SpecFloat.
Import ListNotations.
Local Open Scope Z_scope.

(** * Part I: definitions *)

(** ** Machine integers *)

Module MachineInt.

(** Two's-complement reduction of [v] to a signed integer of [w] bits. *)
Definition wrap_signed (w v : Z) : Z :=
  (v + 2 ^ (w - 1)) mod 2 ^ w - 2 ^ (w - 1).

(** Conversion to [int16_t] and to [uint8_t]. *)
Definition to_int16 (v : Z) : Z := wrap_signed 16 v.
Definition to_uint8 (v : Z) : Z := v mod 256.

Definition in_int16 (v : Z) : Prop := -32768 <= v <= 32767.
Definition in_uint8 (v : Z) : Prop := 0 <= v <= 255.

(** A nonzero integer is true in a condition. *)
Definition truthy (v : Z) : bool := negb (v =? 0).

End MachineInt.
Import MachineInt.

(** ** The target

    The source file does not fix the width of [int] nor the format of
    [double]; both belong to the compiler the firmware is built with
    (16-bit [int] and a 32-bit [double] on the AVR boards, 32-bit [int]
    and a 64-bit [double] on the ARM boards). They are parameters. *)

Record platform : Type := Platform {
  int_bits : Z;      (* width of [int] *)
  double_prec : Z;   (* bits of the mantissa of [double], hidden bit included *)
  double_emax : Z    (* exponent of the infinities of [double] *)
}.

(** What the filter needs of the target: [int] has its 16 bits at least,
    and [double] has at least 18 bits of mantissa. *)
Definition platform_ok (P : platform) : Prop :=
  16 <= int_bits P /\ 18 <= double_prec P <= double_emax P.

Definition arm_eabi : platform := Platform 32 53 1024.
Definition avr : platform := Platform 16 24 128.

(** ** Floating point *)

Module Double.
Section Ops.
Variables prec emax : Z.

(** Conversion of an [int] to [double]. *)
Definition of_int (v : Z) : spec_float := binary_normalize prec emax v 0 false.

(** The literal [0.25]. *)
Definition quarter : spec_float := binary_normalize prec emax 1 (-2) false.

(** Conversion of a [double] to an integer: the fractional part is
    discarded. *)
Definition truncate (d : spec_float) : Z :=
  match d with
  | S754_finite s m e => cond_Zopp s (Z.shiftl (Zpos m) e)
  | _ => 0
  end.

(** The float of the format that holds [n * 2^k], when there is one. *)
Definition dyadic (n k : Z) : spec_float := binary_normalize prec emax n k false.

(** [n * 2^k] has a float of its own in the format. *)
Definition fits (n k : Z) : Prop :=
  Z.abs n < 2 ^ prec /\ 2 - emax <= k /\ k + prec <= emax.

(** The mantissa of a normal float: [p] shifted left to [prec] bits. *)
Definition mant (p : positive) : positive :=
  Z.to_pos (Zpos p * 2 ^ (prec - Zpos (digits2_pos p))).

End Ops.

Definition sign_of (n : Z) : bool := n <? 0.

(** The rational number a float stands for. *)
Definition to_Q (d : spec_float) : Q :=
  match d with
  | S754_finite s m e =>
      match e with
      | Z0 => inject_Z (cond_Zopp s (Zpos m))
      | Zpos k => inject_Z (cond_Zopp s (Zpos m) * 2 ^ Zpos k)
      | Zneg k => Qmake (cond_Zopp s (Zpos m)) (2 ^ k)%positive
      end
  | _ => 0%Q
  end.

End Double.

(** Truncation of a rational toward zero. *)
Definition Qtruncate (q : Q) : Z := Z.quot (Qnum q) (Zpos (Qden q)).

(** ** Data of the module *)

(** [VectorInt16] of the sensor library: three [int16_t] fields. *)
Record VectorInt16 : Type := Vec { x : Z; y : Z; z : Z }.

Definition with_x (v : Z) (u : VectorInt16) : VectorInt16 := Vec v (y u) (z u).
Definition with_y (v : Z) (u : VectorInt16) : VectorInt16 := Vec (x u) v (z u).
Definition with_z (v : Z) (u : VectorInt16) : VectorInt16 := Vec (x u) (y u) v.

Definition vec_ok (u : VectorInt16) : Prop :=
  in_int16 (x u) /\ in_int16 (y u) /\ in_int16 (z u).

(** What one burst read [getMotion6] delivers: six [int16_t] values. *)
Record motion6 : Type := Motion6 { ax : Z; ay : Z; az : Z; gx : Z; gy : Z; gz : Z }.

Definition motion6_ok (r : motion6) : Prop :=
  in_int16 (ax r) /\ in_int16 (ay r) /\ in_int16 (az r) /\
  in_int16 (gx r) /\ in_int16 (gy r) /\ in_int16 (gz r).

(** Packet constants of the protocol layer, kept symbolic. *)
Inductive packet_type : Type := KG_PACKET_TYPE_EVENT.
Inductive packet_class : Type := KG_PACKET_CLASS_MOTION.
Inductive packet_id : Type :=
| KG_PACKET_ID_EVT_MOTION_MODE
| KG_PACKET_ID_EVT_MOTION_DATA.

(** Calls on the sensor object [mpuHand]. *)
Inductive mpu_call : Type :=
| initialize
| setSleepEnabled (enabled : bool)
| setFullScaleGyroRange_FS_2000
| setDLPFMode_BW_42
| setRate (rate : Z)
| setInterruptMode (mode : Z)
| setInterruptDrive (drive : Z)
| setInterruptLatch (latch : Z)
| setInterruptLatchClear (clear : Z)
| setIntDataReadyEnabled (enabled : Z)
| getMotion6.

(** Calls that leave the module, in the order they are made. *)
Inductive effect : Type :=
| pinMode_FUSION_INPUT
| digitalWrite_FUSION_HIGH
| delay (ms : Z)
| attachInterrupt_FUSION_FALLING
| detachInterrupt_FUSION
| mpuHand (c : mpu_call)
| call_kg_evt_motion_mode (index mode : Z)
| call_kg_evt_motion_data (index flags data_len : Z) (data : list Z)
| send_keyglove_packet (t : packet_type) (len : Z) (c : packet_class)
    (id : packet_id) (payload : list Z).

(** The optional callbacks of the application; [None] is the null pointer.
    A callback sees the fields of the event and answers whether the packet
    is to be skipped; it is taken not to touch the state of this module nor
    the payload it is shown. *)
Record callbacks : Type := Callbacks {
  kg_evt_motion_mode : option (Z -> Z -> Z);
  kg_evt_motion_data : option (Z -> Z -> Z -> list Z -> Z)
}.

(** The globals the file declares, the two globals of the protocol layer it
    uses ([skipPacket], [inBinPacket]) and the calls made so far. A function
    of the file runs from its first statement to its last on one state: the
    interrupt handler is a step of its own, between two calls. *)
Record state : Type := State {
  mpuHandInterrupt : bool;
  aaRaw : VectorInt16;
  aa : VectorInt16;
  aa0 : VectorInt16;
  gvRaw : VectorInt16;
  gv : VectorInt16;
  gv0 : VectorInt16;
  skipPacket : Z;
  inBinPacket : bool;
  trace : list effect
}.

Definition set_mpuHandInterrupt (b : bool) (s : state) : state :=
  State b (aaRaw s) (aa s) (aa0 s) (gvRaw s) (gv s) (gv0 s)
        (skipPacket s) (inBinPacket s) (trace s).
Definition set_aaRaw (f : VectorInt16 -> VectorInt16) (s : state) : state :=
  State (mpuHandInterrupt s) (f (aaRaw s)) (aa s) (aa0 s) (gvRaw s) (gv s) (gv0 s)
        (skipPacket s) (inBinPacket s) (trace s).
Definition set_aa (f : VectorInt16 -> VectorInt16) (s : state) : state :=
  State (mpuHandInterrupt s) (aaRaw s) (f (aa s)) (aa0 s) (gvRaw s) (gv s) (gv0 s)
        (skipPacket s) (inBinPacket s) (trace s).
Definition set_aa0 (f : VectorInt16 -> VectorInt16) (s : state) : state :=
  State (mpuHandInterrupt s) (aaRaw s) (aa s) (f (aa0 s)) (gvRaw s) (gv s) (gv0 s)
        (skipPacket s) (inBinPacket s) (trace s).
Definition set_gvRaw (f : VectorInt16 -> VectorInt16) (s : state) : state :=
  State (mpuHandInterrupt s) (aaRaw s) (aa s) (aa0 s) (f (gvRaw s)) (gv s) (gv0 s)
        (skipPacket s) (inBinPacket s) (trace s).
Definition set_gv (f : VectorInt16 -> VectorInt16) (s : state) : state :=
  State (mpuHandInterrupt s) (aaRaw s) (aa s) (aa0 s) (gvRaw s) (f (gv s)) (gv0 s)
        (skipPacket s) (inBinPacket s) (trace s).
Definition set_gv0 (f : VectorInt16 -> VectorInt16) (s : state) : state :=
  State (mpuHandInterrupt s) (aaRaw s) (aa s) (aa0 s) (gvRaw s) (gv s) (f (gv0 s))
        (skipPacket s) (inBinPacket s) (trace s).
Definition set_skipPacket (v : Z) (s : state) : state :=
  State (mpuHandInterrupt s) (aaRaw s) (aa s) (aa0 s) (gvRaw s) (gv s) (gv0 s)
        v (inBinPacket s) (trace s).
Definition emit (e : effect) (s : state) : state :=
  State (mpuHandInterrupt s) (aaRaw s) (aa s) (aa0 s) (gvRaw s) (gv s) (gv0 s)
        (skipPacket s) (inBinPacket s) (trace s ++ [e]).

(** The filtered vectors hold [int16_t] values. *)
Definition state_ok (s : state) : Prop := vec_ok (aa s) /\ vec_ok (gv s).

(** ** The functions of the source file *)

Section Functions.
Variable P : platform.
Variable cb : callbacks.

(** [a - b] on two [int16_t] operands: both are promoted to [int] and the
    difference is an [int]. *)
Definition int_sub (a b : Z) : Z := wrap_signed (int_bits P) (a - b).

(** The difference is an [int]: the subtraction does not overflow. It
    never does on two [int16_t] operands when [int] has 17 bits or more. *)
Definition int_sub_defined (a b : Z) : Prop :=
  - 2 ^ (int_bits P - 1) <= a - b < 2 ^ (int_bits P - 1).

(** The right-hand side [prev + (0.25 * (raw - prev))]: a [double]. *)
Definition smooth_double (prev raw : Z) : spec_float :=
  SFadd (double_prec P) (double_emax P)
    (Double.of_int (double_prec P) (double_emax P) prev)
    (SFmul (double_prec P) (double_emax P)
       (Double.quarter (double_prec P) (double_emax P))
       (Double.of_int (double_prec P) (double_emax P) (int_sub raw prev))).

(** The assignment of that [double] to an [int16_t] field. *)
Definition smooth (prev raw : Z) : Z :=
  to_int16 (Double.truncate (smooth_double prev raw)).

(** [motion_mpu6050_hand_interrupt], lines 59-61. *)
Definition motion_mpu6050_hand_interrupt (s : state) : state :=
  set_mpuHandInterrupt true s.

(** [motion_set_mpu6050_hand_mode], lines 67-86; [mode] is the [uint8_t]
    argument. The chained assignment [aa.x = aa.y = aa.z = 0] stores from
    the right. *)
Definition motion_set_mpu6050_hand_mode (mode : Z) (s : state) : state :=
  let s :=
    if truthy mode then
      let s := set_aa (with_z 0) s in
      let s := set_aa (with_y 0) s in
      let s := set_aa (with_x 0) s in
      let s := set_gv (with_z 0) s in
      let s := set_gv (with_y 0) s in
      let s := set_gv (with_x 0) s in
      let s := set_mpuHandInterrupt true s in
      let s := emit attachInterrupt_FUSION_FALLING s in
      emit (mpuHand (setSleepEnabled false)) s
    else
      let s := emit (mpuHand (setSleepEnabled true)) s in
      emit detachInterrupt_FUSION s in
  if negb (inBinPacket s) then
    let payload := [0; mode] in
    let s := set_skipPacket 0 s in
    let s :=
      match kg_evt_motion_mode cb with
      | Some f =>
          let s := emit (call_kg_evt_motion_mode (nth 0 payload 0) (nth 1 payload 0)) s in
          set_skipPacket (f (nth 0 payload 0) (nth 1 payload 0)) s
      | None => s
      end in
    if negb (truthy (skipPacket s)) then
      emit (send_keyglove_packet KG_PACKET_TYPE_EVENT 2 KG_PACKET_CLASS_MOTION
              KG_PACKET_ID_EVT_MOTION_MODE payload) s
    else s
  else s.

(** [setup_motion_mpu6050_hand], lines 95-113. *)
Definition setup_motion_mpu6050_hand (s : state) : state :=
  let s := emit pinMode_FUSION_INPUT s in
  let s := emit digitalWrite_FUSION_HIGH s in
  let s := set_mpuHandInterrupt false s in
  let s := emit (mpuHand initialize) s in
  let s := emit (delay 30) s in
  let s := emit (mpuHand setFullScaleGyroRange_FS_2000) s in
  let s := emit (mpuHand setDLPFMode_BW_42) s in
  let s := emit (mpuHand (setRate 9)) s in
  let s := emit (mpuHand (setInterruptMode 1)) s in
  let s := emit (mpuHand (setInterruptDrive 1)) s in
  let s := emit (mpuHand (setInterruptLatch 0)) s in
  let s := emit (mpuHand (setInterruptLatchClear 1)) s in
  emit (mpuHand (setIntDataReadyEnabled 1)) s.

(** The payload of the motion-data event, lines 145-160. The operands of
    [&] and [>>] are promoted to [int], [>>] keeps the sign, and each
    result is stored in a [uint8_t]. *)
Definition motion_data_payload (a g : VectorInt16) : list Z :=
  [ 0; 3; 12;
    to_uint8 (Z.land (x a) 255); to_uint8 (Z.shiftr (x a) 8);
    to_uint8 (Z.land (y a) 255); to_uint8 (Z.shiftr (y a) 8);
    to_uint8 (Z.land (z a) 255); to_uint8 (Z.shiftr (z a) 8);
    to_uint8 (Z.land (x g) 255); to_uint8 (Z.shiftr (x g) 8);
    to_uint8 (Z.land (y g) 255); to_uint8 (Z.shiftr (y g) 8);
    to_uint8 (Z.land (z g) 255); to_uint8 (Z.shiftr (z g) 8) ].

(** [update_motion_mpu6050_hand], lines 124-164; [r] is what the sensor
    delivers to the burst read. In order: the read into the raw vectors,
    the copy of the filtered vectors into the shadow vectors, the six
    filter statements, the payload, the callback and the packet. *)
Definition update_motion_mpu6050_hand (r : motion6) (s : state) : state :=
  let s := emit (mpuHand getMotion6) s in
  let s := set_aaRaw (fun _ => Vec (ax r) (ay r) (az r)) s in
  let s := set_gvRaw (fun _ => Vec (gx r) (gy r) (gz r)) s in
  let s := set_aa0 (with_x (x (aa s))) s in
  let s := set_aa0 (with_y (y (aa s))) s in
  let s := set_aa0 (with_z (z (aa s))) s in
  let s := set_gv0 (with_x (x (gv s))) s in
  let s := set_gv0 (with_y (y (gv s))) s in
  let s := set_gv0 (with_z (z (gv s))) s in
  let s := set_aa (with_x (smooth (x (aa0 s)) (x (aaRaw s)))) s in
  let s := set_aa (with_y (smooth (y (aa0 s)) (y (aaRaw s)))) s in
  let s := set_aa (with_z (smooth (z (aa0 s)) (z (aaRaw s)))) s in
  let s := set_gv (with_x (smooth (x (gv0 s)) (x (gvRaw s)))) s in
  let s := set_gv (with_y (smooth (y (gv0 s)) (y (gvRaw s)))) s in
  let s := set_gv (with_z (smooth (z (gv0 s)) (z (gvRaw s)))) s in
  let payload := motion_data_payload (aa s) (gv s) in
  let s := set_skipPacket 0 s in
  let s :=
    match kg_evt_motion_data cb with
    | Some f =>
        let s := emit (call_kg_evt_motion_data (nth 0 payload 0) (nth 1 payload 0)
                         (nth 2 payload 0) (skipn 3 payload)) s in
        set_skipPacket (f (nth 0 payload 0) (nth 1 payload 0) (nth 2 payload 0)
                          (skipn 3 payload)) s
    | None => s
    end in
  if negb (truthy (skipPacket s)) then
    emit (send_keyglove_packet KG_PACKET_TYPE_EVENT 15 KG_PACKET_CLASS_MOTION
            KG_PACKET_ID_EVT_MOTION_DATA payload) s
  else s.

(** Modelled from the spec: the polling step of the main loop, which is not
    among the source files. When the latch is set the consumer clears it
    and runs one read, filter, encode and dispatch sequence; otherwise it
    does nothing. *)
Definition main_loop_poll (r : motion6) (s : state) : state :=
  if mpuHandInterrupt s then
    update_motion_mpu6050_hand r (set_mpuHandInterrupt false s)
  else s.

(** Modelled from the spec: the polling step in its other permitted order,
    where the latch is cleared after the sequence. *)
Definition main_loop_poll_clear_last (r : motion6) (s : state) : state :=
  if mpuHandInterrupt s then
    set_mpuHandInterrupt false (update_motion_mpu6050_hand r s)
  else s.

(** [n] calls of the update with the sensor held at [r]. *)
Fixpoint hold (n : nat) (r : motion6) (s : state) : state :=
  match n with
  | O => s
  | S k => update_motion_mpu6050_hand r (hold k r s)
  end.

End Functions.

(** ** Reference definitions the properties are stated with *)

(** The six filtered channels, by name. *)
Inductive axis : Type := AX | AY | AZ | GX | GY | GZ.

Definition filtered (a : axis) (s : state) : Z :=
  match a with
  | AX => x (aa s) | AY => y (aa s) | AZ => z (aa s)
  | GX => x (gv s) | GY => y (gv s) | GZ => z (gv s)
  end.

Definition shadow (a : axis) (s : state) : Z :=
  match a with
  | AX => x (aa0 s) | AY => y (aa0 s) | AZ => z (aa0 s)
  | GX => x (gv0 s) | GY => y (gv0 s) | GZ => z (gv0 s)
  end.

Definition raw (a : axis) (s : state) : Z :=
  match a with
  | AX => x (aaRaw s) | AY => y (aaRaw s) | AZ => z (aaRaw s)
  | GX => x (gvRaw s) | GY => y (gvRaw s) | GZ => z (gvRaw s)
  end.

Definition sample (a : axis) (r : motion6) : Z :=
  match a with
  | AX => ax r | AY => ay r | AZ => az r
  | GX => gx r | GY => gy r | GZ => gz r
  end.

(** The filter as the specification words it, over the rationals:
    [filtered_prev + alpha * (raw - filtered_prev)] with [alpha = 0.25]. *)
Definition alpha : Q := 1 # 4.
Definition ema_spec (prev sample_ : Z) : Q :=
  (inject_Z prev + alpha * (inject_Z sample_ - inject_Z prev))%Q.

(** [b] lies between [a] and [c], ends included. *)
Definition between (a b c : Z) : Prop := a <= b <= c \/ c <= b <= a.

(** Little-endian signed 16-bit reading of two bytes, as a receiver of the
    packet does it. *)
Definition le_int16 (lo hi : Z) : Z :=
  let u := lo + 256 * hi in if u <? 32768 then u else u - 65536.

Definition decode_motion_data (payload : list Z) : option (VectorInt16 * VectorInt16) :=
  match payload with
  | [_; _; _; b3; b4; b5; b6; b7; b8; b9; b10; b11; b12; b13; b14] =>
      Some (Vec (le_int16 b3 b4) (le_int16 b5 b6) (le_int16 b7 b8),
            Vec (le_int16 b9 b10) (le_int16 b11 b12) (le_int16 b13 b14))
  | _ => None
  end.

(** Observations on a trace: the burst reads and the packets handed to the
    transport. *)
Definition is_read (e : effect) : bool :=
  match e with mpuHand getMotion6 => true | _ => false end.
Definition is_send (e : effect) : bool :=
  match e with send_keyglove_packet _ _ _ _ _ => true | _ => false end.
Definition reads (tr : list effect) : nat := length (filter is_read tr).
Definition sent (tr : list effect) : list effect := filter is_send tr.

(** The dispatch gate as the specification words it: [answer] is what the
    callback returned, [None] when no callback is registered. *)
Definition gate (answer : option Z) (pkt : effect) : list effect :=
  match answer with
  | Some v => if truthy v then [] else [pkt]
  | None => [pkt]
  end.

(** The hardware side of a mode change. *)
Definition mode_hardware (mode : Z) : list effect :=
  if truthy mode
  then [attachInterrupt_FUSION_FALLING; mpuHand (setSleepEnabled false)]
  else [mpuHand (setSleepEnabled true); detachInterrupt_FUSION].

Definition motion_mode_packet (mode : Z) : effect :=
  send_keyglove_packet KG_PACKET_TYPE_EVENT 2 KG_PACKET_CLASS_MOTION
    KG_PACKET_ID_EVT_MOTION_MODE [0; mode].

Definition motion_data_packet (payload : list Z) : effect :=
  send_keyglove_packet KG_PACKET_TYPE_EVENT 15 KG_PACKET_CLASS_MOTION
    KG_PACKET_ID_EVT_MOTION_DATA payload.

(** What an event leaves on the trace: the callback, when there is one, is
    called with the fields of the payload, and the gate decides on the
    packet. *)
Definition motion_mode_event (cb : callbacks) (mode : Z) : list effect :=
  match kg_evt_motion_mode cb with
  | Some f =>
      call_kg_evt_motion_mode 0 mode :: gate (Some (f 0 mode)) (motion_mode_packet mode)
  | None => gate None (motion_mode_packet mode)
  end.

Definition motion_data_event (cb : callbacks) (payload : list Z) : list effect :=
  match kg_evt_motion_data cb with
  | Some f =>
      call_kg_evt_motion_data 0 3 12 (skipn 3 payload)
        :: gate (Some (f 0 3 12 (skipn 3 payload))) (motion_data_packet payload)
  | None => gate None (motion_data_packet payload)
  end.

(** What the callback of an event answered, [None] without a callback. *)
Definition motion_mode_answer (cb : callbacks) (mode : Z) : option Z :=
  match kg_evt_motion_mode cb with
  | Some f => Some (f 0 mode)
  | None => None
  end.

Definition motion_data_answer (cb : callbacks) (payload : list Z) : option Z :=
  match kg_evt_motion_data cb with
  | Some f => Some (f 0 3 12 (skipn 3 payload))
  | None => None
  end.

(** The filtered vectors an update computes from the state and the
    reading. *)
Definition next_aa (P : platform) (r : motion6) (s : state) : VectorInt16 :=
  Vec (smooth P (x (aa s)) (ax r)) (smooth P (y (aa s)) (ay r))
      (smooth P (z (aa s)) (az r)).
Definition next_gv (P : platform) (r : motion6) (s : state) : VectorInt16 :=
  Vec (smooth P (x (gv s)) (gx r)) (smooth P (y (gv s)) (gy r))
      (smooth P (z (gv s)) (gz r)).

(** Little-endian bytes of a 16-bit value: low byte first. *)
Definition le_bytes (v : Z) : list Z := [v mod 256; (v / 256) mod 256].

(** ** Concrete inputs *)

Definition zero3 : VectorInt16 := Vec 0 0 0.
Definition power_on : state :=
  State false zero3 zero3 zero3 zero3 zero3 zero3 0 false [].
Definition at_100 : state :=
  State false zero3 (Vec 100 100 100) zero3 zero3 (Vec 100 100 100) zero3 0 false [].
Definition still : motion6 := Motion6 0 0 0 0 0 0.
Definition push : motion6 := Motion6 1000 0 0 0 0 0.
Definition no_callbacks : callbacks := Callbacks None None.
Definition vetoing : callbacks :=
  Callbacks (Some (fun _ _ => 1)) (Some (fun _ _ _ _ => 1)).
Definition observing : callbacks :=
  Callbacks (Some (fun _ _ => 0)) (Some (fun _ _ _ _ => 0)).

(** ** Sequences of calls *)

(** A call of one of the four functions of the file. *)
Inductive call : Type :=
| Interrupt
| SetMode (mode : Z)
| Setup
| Update (r : motion6).

Definition exec (P : platform) (cb : callbacks) (c : call) (s : state) : state :=
  match c with
  | Interrupt => motion_mpu6050_hand_interrupt s
  | SetMode mode => motion_set_mpu6050_hand_mode cb mode s
  | Setup => setup_motion_mpu6050_hand s
  | Update r => update_motion_mpu6050_hand P cb r s
  end.

(** The calls of [cs] one after the other, the first one first. *)
Fixpoint run (P : platform) (cb : callbacks) (cs : list call) (s : state) : state :=
  match cs with
  | [] => s
  | c :: rest => run P cb rest (exec P cb c s)
  end.

(** The arguments of a call have the types of the parameters: a mode is a
    [uint8_t], a reading is six [int16_t]. *)
Definition call_ok (c : call) : Prop :=
  match c with
  | SetMode mode => in_uint8 mode
  | Update r => motion6_ok r
  | _ => True
  end.

Definition is_update (c : call) : bool :=
  match c with Update _ => true | _ => false end.
Definition is_set_mode (c : call) : bool :=
  match c with SetMode _ => true | _ => false end.

(** A packet as the transport expects it: the length passed is the length
    of the payload, the payload is made of bytes, and it has the layout of
    its event. *)
Definition packet_ok (e : effect) : Prop :=
  match e with
  | send_keyglove_packet _ len _ id payload =>
      len = Z.of_nat (length payload) /\ Forall in_uint8 payload /\
      match id with
      | KG_PACKET_ID_EVT_MOTION_MODE => len = 2 /\ nth 0 payload 0 = 0
      | KG_PACKET_ID_EVT_MOTION_DATA => len = 15 /\ firstn 3 payload = [0; 3; 12]
      end
  | _ => True
  end.

(** All six vectors hold [int16_t] values. *)
Definition vectors_ok (s : state) : Prop :=
  vec_ok (aaRaw s) /\ vec_ok (aa s) /\ vec_ok (aa0 s) /\
  vec_ok (gvRaw s) /\ vec_ok (gv s) /\ vec_ok (gv0 s).

(** The protocol layer's write of its flag [inBinPacket]; no function of
    the file writes it. *)
Definition set_inBinPacket (b : bool) (s : state) : state :=
  State (mpuHandInterrupt s) (aaRaw s) (aa s) (aa0 s) (gvRaw s) (gv s) (gv0 s)
        (skipPacket s) b (trace s).

(** The calls [setup_motion_mpu6050_hand] makes, in order. *)
Definition setup_calls : list effect :=
  [pinMode_FUSION_INPUT; digitalWrite_FUSION_HIGH; mpuHand initialize; delay 30;
   mpuHand setFullScaleGyroRange_FS_2000; mpuHand setDLPFMode_BW_42;
   mpuHand (setRate 9); mpuHand (setInterruptMode 1); mpuHand (setInterruptDrive 1);
   mpuHand (setInterruptLatch 0); mpuHand (setInterruptLatchClear 1);
   mpuHand (setIntDataReadyEnabled 1)].

(** More concrete inputs. *)
Definition at_rest_from_40 : state :=
  State false zero3 (Vec 40 (-40) 7) zero3 zero3 (Vec 0 3 (-3)) zero3 0 false [].
Definition shake : motion6 := Motion6 3 (-200) 32767 (-32768) 1 0.
Definition swung_low : state :=
  State false zero3 (Vec (-20000) 0 0) zero3 zero3 zero3 zero3 0 false [].
Definition swing_high : motion6 := Motion6 20000 0 0 0 0 0.
Definition a_session : list call :=
  [Setup; SetMode 1; Interrupt; Update push; Update shake; SetMode 0; Update still].

(** * Part II: lemmas *)

(** ** Machine integers *)

Lemma pow2_double (w : Z) : 0 < w -> 2 ^ w = 2 * 2 ^ (w - 1).
Proof.
  intro Hw. replace w with (Z.succ (w - 1)) at 1 by lia.
  apply Z.pow_succ_r. lia.
Qed.

Lemma wrap_signed_small (w v : Z) :
  0 < w -> - 2 ^ (w - 1) <= v < 2 ^ (w - 1) -> wrap_signed w v = v.
Proof.
  intros Hw Hv. unfold wrap_signed.
  rewrite (pow2_double w Hw), Z.mod_small; lia.
Qed.

Lemma wrap_signed_range (w v : Z) :
  0 < w -> - 2 ^ (w - 1) <= wrap_signed w v < 2 ^ (w - 1).
Proof.
  intros Hw. unfold wrap_signed.
  assert (0 < 2 ^ (w - 1)) by (apply Z.pow_pos_nonneg; lia).
  pose proof (Z.mod_pos_bound (v + 2 ^ (w - 1)) (2 ^ w)) as B.
  rewrite (pow2_double w Hw) in *. lia.
Qed.

Lemma to_int16_small (v : Z) : in_int16 v -> to_int16 v = v.
Proof.
  unfold in_int16, to_int16. intro H.
  apply wrap_signed_small; [lia | change (2 ^ (16 - 1)) with 32768; lia].
Qed.

Lemma to_int16_range (v : Z) : in_int16 (to_int16 v).
Proof.
  unfold in_int16, to_int16.
  pose proof (wrap_signed_range 16 v ltac:(lia)) as H.
  change (2 ^ (16 - 1)) with 32768 in H. lia.
Qed.

Lemma to_uint8_range (v : Z) : in_uint8 (to_uint8 v).
Proof.
  unfold in_uint8, to_uint8. pose proof (Z.mod_pos_bound v 256). lia.
Qed.

Lemma int_sub_exact (P : platform) (a b : Z) :
  0 < int_bits P -> int_sub_defined P a b -> int_sub P a b = a - b.
Proof.
  unfold int_sub_defined, int_sub. intros Hw H.
  apply wrap_signed_small; assumption.
Qed.

(** The difference of two [int16_t] values is an [int] when [int] has 17
    bits or more. *)
Lemma int_sub_defined_wide (P : platform) (a b : Z) :
  17 <= int_bits P -> in_int16 a -> in_int16 b -> int_sub_defined P a b.
Proof.
  unfold in_int16, int_sub_defined. intros Hw Ha Hb.
  assert (2 ^ 16 <= 2 ^ (int_bits P - 1)) by (apply Z.pow_le_mono_r; lia).
  change (2 ^ 16) with 65536 in *. lia.
Qed.

Lemma int_sub_defined_0 (P : platform) (a : Z) :
  16 <= int_bits P -> in_int16 a -> int_sub_defined P a 0.
Proof.
  unfold in_int16, int_sub_defined. intros Hw Ha.
  assert (2 ^ 15 <= 2 ^ (int_bits P - 1)) by (apply Z.pow_le_mono_r; lia).
  change (2 ^ 15) with 32768 in *. lia.
Qed.

(** A difference between two that are defined is defined. *)
Lemma int_sub_defined_between (P : platform) (a b c : Z) :
  0 < int_bits P -> int_sub_defined P c a -> between a b c ->
  int_sub_defined P c b.
Proof.
  unfold int_sub_defined, between. intros Hw H B.
  assert (0 < 2 ^ (int_bits P - 1)) by (apply Z.pow_pos_nonneg; lia).
  lia.
Qed.

(** ** Binary digits of a mantissa *)

Lemma Zpos_iter_xO (p q : positive) :
  Zpos (Pos.iter xO p q) = Zpos p * 2 ^ Zpos q.
Proof.
  induction q as [|q IH] using Pos.peano_ind.
  - simpl. lia.
  - rewrite Pos.iter_succ, Pos2Z.inj_xO, IH, Pos2Z.inj_succ, Z.pow_succ_r by lia.
    ring.
Qed.

Lemma digits2_pos_bounds (p : positive) :
  2 ^ (Zpos (digits2_pos p) - 1) <= Zpos p < 2 ^ Zpos (digits2_pos p).
Proof.
  induction p as [p IH|p IH|]; simpl digits2_pos.
  - rewrite Pos2Z.inj_succ, Z.pow_succ_r by lia.
    replace (Z.succ (Zpos (digits2_pos p)) - 1)
      with (Z.succ (Zpos (digits2_pos p) - 1)) by lia.
    rewrite Z.pow_succ_r by lia. lia.
  - rewrite Pos2Z.inj_succ, Z.pow_succ_r by lia.
    replace (Z.succ (Zpos (digits2_pos p)) - 1)
      with (Z.succ (Zpos (digits2_pos p) - 1)) by lia.
    rewrite Z.pow_succ_r by lia. lia.
  - simpl. lia.
Qed.

Lemma digits2_pos_unique (p : positive) (d : Z) :
  2 ^ (d - 1) <= Zpos p < 2 ^ d -> Zpos (digits2_pos p) = d.
Proof.
  intros [Hlo Hhi].
  pose proof (digits2_pos_bounds p) as [Blo Bhi].
  assert (0 < d).
  { destruct (Z_lt_le_dec 0 d) as [|Hd]; [assumption|].
    assert (2 ^ d <= 2 ^ 0)
      by (destruct (Z_lt_le_dec d 0);
          [rewrite Z.pow_neg_r by lia; simpl; lia | apply Z.pow_le_mono_r; lia]).
    simpl in *. lia. }
  destruct (Z_lt_le_dec (Zpos (digits2_pos p)) d) as [Hlt|Hge].
  - assert (2 ^ Zpos (digits2_pos p) <= 2 ^ (d - 1))
      by (apply Z.pow_le_mono_r; lia).
    lia.
  - destruct (Z_lt_le_dec d (Zpos (digits2_pos p))) as [Hlt|Hle]; [|lia].
    assert (2 ^ d <= 2 ^ (Zpos (digits2_pos p) - 1))
      by (apply Z.pow_le_mono_r; lia).
    lia.
Qed.

Lemma digits2_pos_shift (p m : positive) (n : Z) :
  0 <= n -> Zpos p = Zpos m * 2 ^ n ->
  Zpos (digits2_pos p) = Zpos (digits2_pos m) + n.
Proof.
  intros Hn Hp. apply digits2_pos_unique.
  pose proof (digits2_pos_bounds m) as [Blo Bhi].
  rewrite Hp.
  replace (Zpos (digits2_pos m) + n - 1) with ((Zpos (digits2_pos m) - 1) + n) by lia.
  rewrite !Z.pow_add_r by lia.
  assert (0 < 2 ^ n) by (apply Z.pow_pos_nonneg; lia).
  split; [apply Z.mul_le_mono_nonneg_r | apply Z.mul_lt_mono_pos_r]; lia.
Qed.

Lemma digits2_pos_mul (p q : positive) :
  Zpos (digits2_pos p) + Zpos (digits2_pos q) - 1 <= Zpos (digits2_pos (p * q)).
Proof.
  pose proof (digits2_pos_bounds p) as [Plo _].
  pose proof (digits2_pos_bounds q) as [Qlo _].
  pose proof (digits2_pos_bounds (p * q)) as [_ Rhi].
  set (a := Zpos (digits2_pos p)) in *. set (b := Zpos (digits2_pos q)) in *.
  set (c := Zpos (digits2_pos (p * q))) in *.
  assert (0 < a) by (unfold a; lia). assert (0 < b) by (unfold b; lia).
  assert (0 < c) by (unfold c; lia).
  destruct (Z_le_dec (a + b - 1) c) as [|Hn]; [assumption|exfalso].
  assert (2 ^ c <= 2 ^ ((a - 1) + (b - 1))) by (apply Z.pow_le_mono_r; lia).
  rewrite Z.pow_add_r in * by lia.
  assert (2 ^ (a - 1) * 2 ^ (b - 1) <= Zpos p * Zpos q).
  { apply Z.mul_le_mono_nonneg; try lia; apply Z.pow_nonneg; lia. }
  rewrite Pos2Z.inj_mul in Rhi. lia.
Qed.

(** ** Rounding leaves a float that fits unchanged *)

Lemma iter_pos_shr_1 (q m : positive) :
  iter_pos shr_1 q
    {| shr_m := Zpos (Pos.iter xO m q); shr_r := false; shr_s := false |}
  = {| shr_m := Zpos m; shr_r := false; shr_s := false |}.
Proof.
  assert (E : forall (A : Type) (f : A -> A) (k : positive) (a : A),
             iter_pos f k a = Pos.iter f a k).
  { intros A f k. induction k as [k IH|k IH|]; intro a; simpl.
    - rewrite !IH, !Pos.iter_swap. reflexivity.
    - rewrite !IH. reflexivity.
    - reflexivity. }
  rewrite E. revert m.
  induction q as [|q IH] using Pos.peano_ind; intro m.
  - reflexivity.
  - rewrite !Pos.iter_succ, <- Pos.iter_swap. simpl shr_1. apply IH.
Qed.

Lemma Zpos_shl_align (m : positive) (e ez : Z) :
  ez <= e -> Zpos (fst (shl_align m e ez)) = Zpos m * 2 ^ (e - ez).
Proof.
  intro H. unfold shl_align.
  destruct (ez - e) as [|d|d] eqn:E; try lia; cbn [fst].
  - replace (e - ez) with 0 by lia. simpl. lia.
  - rewrite Zpos_iter_xO. f_equal. f_equal. lia.
Qed.

Section Rounding.
Variables prec emax : Z.

Lemma binary_round_aux_fix (s : bool) (m : positive) (e : Z) :
  fexp prec emax (Zpos (digits2_pos m) + e) = e -> e <= emax - prec ->
  binary_round_aux prec emax s (Zpos m) e loc_Exact = S754_finite s m e.
Proof.
  intros Hf He. unfold binary_round_aux, shr_fexp. cbn [Zdigits2].
  rewrite Hf, Z.sub_diag.
  cbn [shr shr_record_of_loc shr_m round_nearest_even loc_of_shr_record Zdigits2].
  rewrite Hf, Z.sub_diag.
  cbn [shr shr_record_of_loc shr_m].
  apply Z.leb_le in He. rewrite He. reflexivity.
Qed.

(** [p * 2^k] rounds to the float [m * 2^e] of the same value, for [e] the
    exponent the format gives a number of that magnitude. *)
Lemma binary_round_exact (s : bool) (p m : positive) (k e : Z) :
  e = Zpos (digits2_pos p) + k - prec ->
  emin prec emax <= e <= emax - prec ->
  Zpos m * 2 ^ Z.max 0 (e - k) = Zpos p * 2 ^ Z.max 0 (k - e) ->
  binary_round prec emax s p k = S754_finite s m e.
Proof.
  intros He [Hlo Hhi] Hm.
  assert (Hf : fexp prec emax (Zpos (digits2_pos p) + k) = e)
    by (unfold fexp, emin in *; lia).
  unfold binary_round. rewrite Hf. unfold shl_align.
  destruct (e - k) as [|q|q] eqn:Hq.
  - assert (Hk : k = e) by lia. rewrite Hk in *.
    rewrite Z.sub_diag in Hm. simpl in Hm.
    assert (m = p) by lia. subst m.
    apply binary_round_aux_fix; [exact Hf | lia].
  - replace (Z.max 0 (k - e)) with 0 in Hm by lia.
    replace (Z.max 0 (Zpos q)) with (Zpos q) in Hm by lia.
    rewrite Z.pow_0_r, Z.mul_1_r in Hm.
    assert (Hp : p = Pos.iter xO m q).
    { apply Pos2Z.inj. rewrite Zpos_iter_xO. lia. }
    assert (Hd : Zpos (digits2_pos p) = Zpos (digits2_pos m) + Zpos q)
      by (apply digits2_pos_shift; lia).
    unfold binary_round_aux, shr_fexp. cbn [Zdigits2].
    rewrite Hf, Hq. cbn [shr shr_record_of_loc].
    rewrite Hp, iter_pos_shr_1.
    cbn [shr_record_of_loc shr_m round_nearest_even loc_of_shr_record Zdigits2].
    replace (k + Zpos q) with e by lia.
    assert (Hf' : fexp prec emax (Zpos (digits2_pos m) + e) = e)
      by (unfold fexp, emin in *; lia).
    rewrite Hf', Z.sub_diag. cbn [shr shr_m].
    apply Z.leb_le in Hhi. rewrite Hhi. reflexivity.
  - replace (Z.max 0 (k - e)) with (Zpos q) in Hm by lia.
    replace (Z.max 0 (Zneg q)) with 0 in Hm by lia.
    rewrite Z.pow_0_r, Z.mul_1_r in Hm.
    assert (Hp : m = Pos.iter xO p q).
    { apply Pos2Z.inj. rewrite Zpos_iter_xO. lia. }
    rewrite <- Hp.
    apply binary_round_aux_fix; [|lia].
    assert (Hd : Zpos (digits2_pos m) = Zpos (digits2_pos p) + Zpos q)
      by (apply digits2_pos_shift; lia).
    unfold fexp, emin in *. lia.
Qed.

Lemma binary_round_no_align (s : bool) (p : positive) (k : Z) :
  k <= fexp prec emax (Zpos (digits2_pos p) + k) ->
  binary_round_aux prec emax s (Zpos p) k loc_Exact = binary_round prec emax s p k.
Proof.
  intro H. unfold binary_round, shl_align.
  destruct (fexp prec emax (Zpos (digits2_pos p) + k) - k) eqn:E;
    try reflexivity; lia.
Qed.

Lemma digits2_pos_le (p : positive) :
  Zpos p < 2 ^ prec -> Zpos (digits2_pos p) <= prec.
Proof.
  intro H. pose proof (digits2_pos_bounds p) as [Blo _].
  destruct (Z_lt_le_dec prec (Zpos (digits2_pos p))) as [Hlt|]; [|assumption].
  assert (2 ^ prec <= 2 ^ (Zpos (digits2_pos p) - 1))
    by (apply Z.pow_le_mono_r; lia).
  lia.
Qed.

Lemma Zpos_mant (p : positive) :
  Zpos p < 2 ^ prec ->
  Zpos (Double.mant prec p) = Zpos p * 2 ^ (prec - Zpos (digits2_pos p)).
Proof.
  intro H. pose proof (digits2_pos_le p H).
  unfold Double.mant. apply Z2Pos.id.
  apply Z.mul_pos_pos; [lia | apply Z.pow_pos_nonneg; lia].
Qed.

Lemma binary_round_dyadic (s : bool) (p q : positive) (n k : Z) :
  0 <= n -> Zpos q = Zpos p * 2 ^ n -> Double.fits prec emax (Zpos p) (k + n) ->
  binary_round prec emax s q k
  = S754_finite s (Double.mant prec p) (Zpos (digits2_pos p) + (k + n) - prec).
Proof.
  intros Hn Hq (Hp & Hlo & Hhi). simpl Z.abs in Hp.
  pose proof (digits2_pos_le p Hp) as Hd.
  pose proof (digits2_pos_shift q p n Hn Hq) as Hdq.
  pose proof (Zpos_mant p Hp) as Hm.
  assert (0 < Zpos (digits2_pos p)) by lia.
  apply binary_round_exact.
  - lia.
  - unfold emin. lia.
  - rewrite Hm, Hq.
    set (d := Zpos (digits2_pos p)) in *.
    destruct (Z_le_dec (d + n) prec) as [Hle|Hgt].
    + replace (Z.max 0 (d + (k + n) - prec - k)) with 0 by lia.
      replace (Z.max 0 (k - (d + (k + n) - prec))) with (prec - d - n) by lia.
      rewrite Z.pow_0_r, Z.mul_1_r, <- Z.mul_assoc, <- Z.pow_add_r by lia.
      f_equal. f_equal. lia.
    + replace (Z.max 0 (d + (k + n) - prec - k)) with (d + n - prec) by lia.
      replace (Z.max 0 (k - (d + (k + n) - prec))) with 0 by lia.
      rewrite Z.pow_0_r, Z.mul_1_r, <- Z.mul_assoc, <- Z.pow_add_r by lia.
      f_equal. f_equal. lia.
Qed.

End Rounding.

(** ** The operations of the filter are exact on dyadic numbers that fit *)

Section Exact.
Variables prec emax : Z.
Import Double.

Lemma xorb_sign_of (a b : Z) :
  a <> 0 -> b <> 0 -> xorb (sign_of a) (sign_of b) = sign_of (a * b).
Proof. destruct a, b; intros; try contradiction; reflexivity. Qed.

Lemma dyadic_canon (n k : Z) (p : positive) :
  Zpos p = Z.abs n -> fits prec emax n k ->
  dyadic prec emax n k
  = S754_finite (sign_of n) (mant prec p) (Zpos (digits2_pos p) + k - prec).
Proof.
  intros Hp Hf. unfold dyadic, binary_normalize, sign_of.
  destruct n as [|n|n]; simpl in Hp; try discriminate;
    injection Hp as ->; simpl Z.ltb;
    replace k with (k + 0) at 2 by lia;
    apply binary_round_dyadic; try lia; rewrite ?Z.add_0_r; exact Hf.
Qed.

Lemma dyadic_rescale (n k j : Z) :
  0 <= j -> fits prec emax n (k + j) ->
  dyadic prec emax (n * 2 ^ j) k = dyadic prec emax n (k + j).
Proof.
  intros Hj Hf.
  assert (0 < 2 ^ j) by (apply Z.pow_pos_nonneg; lia).
  destruct n as [|p|p].
  - reflexivity.
  - rewrite (dyadic_canon (Zpos p) (k + j) p) by auto.
    unfold dyadic, binary_normalize.
    destruct (Zpos p * 2 ^ j) as [|q|q] eqn:E; try lia.
    unfold sign_of. simpl Z.ltb.
    apply binary_round_dyadic; auto.
  - rewrite (dyadic_canon (Zneg p) (k + j) p) by auto.
    unfold dyadic, binary_normalize.
    destruct (Zneg p * 2 ^ j) as [|q|q] eqn:E; try lia.
    unfold sign_of. simpl Z.ltb.
    apply binary_round_dyadic; auto. lia.
Qed.

(** Multiplication is exact when the product fits the mantissa. *)
Lemma SFmul_dyadic (n1 k1 n2 k2 : Z) :
  n1 <> 0 -> n2 <> 0 ->
  fits prec emax n1 k1 -> fits prec emax n2 k2 ->
  fits prec emax (n1 * n2) (k1 + k2) ->
  SFmul prec emax (dyadic prec emax n1 k1) (dyadic prec emax n2 k2)
  = dyadic prec emax (n1 * n2) (k1 + k2).
Proof.
  intros N1 N2 F1 F2 F3.
  destruct (Z.abs n1) as [|p1|p1] eqn:A1; try lia.
  destruct (Z.abs n2) as [|p2|p2] eqn:A2; try lia.
  assert (A3 : Zpos (p1 * p2) = Z.abs (n1 * n2)) by (rewrite Z.abs_mul; lia).
  rewrite (dyadic_canon n1 k1 p1), (dyadic_canon n2 k2 p2),
    (dyadic_canon (n1 * n2) (k1 + k2) (p1 * p2)) by auto.
  cbn [SFmul]. rewrite xorb_sign_of by assumption.
  destruct F1 as (B1 & _), F2 as (B2 & _), F3 as (B3 & L3 & H3).
  rewrite <- A3 in B3. rewrite A1 in B1. rewrite A2 in B2.
  pose proof (digits2_pos_le prec _ B1). pose proof (digits2_pos_le prec _ B2).
  pose proof (digits2_pos_le prec _ B3). pose proof (digits2_pos_mul p1 p2).
  set (d1 := Zpos (digits2_pos p1)) in *. set (d2 := Zpos (digits2_pos p2)) in *.
  set (d3 := Zpos (digits2_pos (p1 * p2))) in *.
  assert (0 < d1) by (unfold d1; lia). assert (0 < d2) by (unfold d2; lia).
  assert (Q : Zpos (mant prec p1 * mant prec p2)
              = Zpos (p1 * p2) * 2 ^ (2 * prec - d1 - d2)).
  { rewrite !Pos2Z.inj_mul, !Zpos_mant by assumption. fold d1 d2.
    replace (2 * prec - d1 - d2) with ((prec - d1) + (prec - d2)) by lia.
    rewrite Z.pow_add_r by lia. ring. }
  assert (G : fits prec emax (Zpos (p1 * p2))
                (d1 + k1 - prec + (d2 + k2 - prec) + (2 * prec - d1 - d2))).
  { unfold fits. simpl Z.abs. lia. }
  pose proof (binary_round_dyadic prec emax (sign_of (n1 * n2)) (p1 * p2)
                (mant prec p1 * mant prec p2) (2 * prec - d1 - d2)
                (d1 + k1 - prec + (d2 + k2 - prec)) ltac:(lia) Q G) as R.
  rewrite binary_round_no_align.
  - rewrite R. fold d3. f_equal. lia.
  - rewrite (digits2_pos_shift _ _ (2 * prec - d1 - d2) ltac:(lia) Q). fold d3.
    unfold fexp. lia.
Qed.

(** Addition at a common scale is exact when the sum fits the mantissa. *)
Lemma SFadd_dyadic (n1 n2 k : Z) :
  fits prec emax n1 k -> fits prec emax n2 k -> fits prec emax (n1 + n2) k ->
  SFadd prec emax (dyadic prec emax n1 k) (dyadic prec emax n2 k)
  = dyadic prec emax (n1 + n2) k.
Proof.
  intros F1 F2 F3.
  destruct (Z.abs n1) as [|p1|p1] eqn:A1; try lia.
  { assert (n1 = 0) by lia. subst n1. rewrite Z.add_0_l.
    destruct (Z.abs n2) as [|p2|p2] eqn:A2; try lia.
    - assert (n2 = 0) by lia. subst n2. reflexivity.
    - rewrite (dyadic_canon n2 k p2) by auto. reflexivity. }
  destruct (Z.abs n2) as [|p2|p2] eqn:A2; try lia.
  { assert (n2 = 0) by lia. subst n2. rewrite Z.add_0_r.
    rewrite (dyadic_canon n1 k p1) by auto. reflexivity. }
  rewrite (dyadic_canon n1 k p1), (dyadic_canon n2 k p2) by auto.
  cbn [SFadd].
  destruct F1 as (B1 & L1 & H1), F2 as (B2 & _).
  rewrite A1 in B1. rewrite A2 in B2.
  pose proof (digits2_pos_le prec _ B1). pose proof (digits2_pos_le prec _ B2).
  set (d1 := Zpos (digits2_pos p1)) in *. set (d2 := Zpos (digits2_pos p2)) in *.
  assert (0 < d1) by (unfold d1; lia). assert (0 < d2) by (unfold d2; lia).
  set (ez := Z.min (d1 + k - prec) (d2 + k - prec)).
  rewrite !Zpos_shl_align by (unfold ez; lia).
  rewrite !Zpos_mant by assumption. fold d1 d2.
  assert (E : forall n p d, Zpos p = Z.abs n -> 0 < d <= prec ->
              ez <= d + k - prec ->
              cond_Zopp (sign_of n) (Zpos p * 2 ^ (prec - d) * 2 ^ (d + k - prec - ez))
              = n * 2 ^ (k - ez)).
  { intros n p d Hp Hd He. rewrite <- Z.mul_assoc, <- Z.pow_add_r by lia.
    replace (prec - d + (d + k - prec - ez)) with (k - ez) by lia.
    rewrite Hp. unfold sign_of.
    destruct n; cbn [Z.ltb Z.compare cond_Zopp Z.abs]; try ring.
    rewrite <- Pos2Z.opp_pos. ring. }
  rewrite (E n1 p1 d1), (E n2 p2 d2) by (unfold ez; lia).
  rewrite <- Z.mul_add_distr_r.
  change (binary_normalize prec emax ?n ?e false) with (dyadic prec emax n e).
  rewrite dyadic_rescale
    by (unfold ez; try lia; replace (_ + (k - _)) with k by lia; assumption).
  f_equal. lia.
Qed.

(** Conversion to an integer rounds toward zero. *)
Lemma truncate_dyadic (n k : Z) :
  k <= 0 -> fits prec emax n k ->
  truncate (dyadic prec emax n k) = Z.quot n (2 ^ (- k)).
Proof.
  intros Hk F.
  assert (0 < 2 ^ (- k)) by (apply Z.pow_pos_nonneg; lia).
  destruct (Z.abs n) as [|p|p] eqn:A; try lia.
  { assert (n = 0) by lia. subst n. rewrite Z.quot_0_l by lia. reflexivity. }
  rewrite (dyadic_canon n k p) by auto. cbn [truncate].
  destruct F as (B & _). rewrite A in B.
  pose proof (digits2_pos_le prec _ B).
  set (d := Zpos (digits2_pos p)) in *.
  assert (0 < d) by (unfold d; lia).
  rewrite <- (Z.opp_involutive (d + k - prec)), Z.shiftl_opp_r, Z.shiftr_div_pow2 by lia.
  rewrite Zpos_mant by assumption. fold d.
  replace (- (d + k - prec)) with (- k + (prec - d)) by lia.
  rewrite Z.pow_add_r by lia.
  rewrite Z.div_mul_cancel_r by (try lia; apply Z.pow_nonzero; lia).
  unfold sign_of.
  destruct n as [|q|q]; try discriminate; cbn [Z.ltb Z.compare cond_Zopp];
    simpl in A; injection A as ->.
  - rewrite Z.quot_div_nonneg by lia. reflexivity.
  - rewrite <- Pos2Z.opp_pos, Z.quot_opp_l, Z.quot_div_nonneg by lia. reflexivity.
Qed.

End Exact.

Section Value.
Variables prec emax : Z.
Import Double.

(** The rational a dyadic float stands for. *)
Lemma to_Q_dyadic (n k : Z) :
  k <= 0 -> fits prec emax n k ->
  (to_Q (dyadic prec emax n k) == Qmake n (Z.to_pos (2 ^ (- k))))%Q.
Proof.
  intros Hk F.
  assert (Hpow : 0 < 2 ^ (- k)) by (apply Z.pow_pos_nonneg; lia).
  destruct (Z.abs n) as [|p|p] eqn:A; try lia.
  { assert (n = 0) by lia. subst n. reflexivity. }
  rewrite (dyadic_canon prec emax n k p) by auto.
  destruct F as (B & _). rewrite A in B.
  pose proof (digits2_pos_le prec _ B) as Hd.
  pose proof (Zpos_mant prec p B) as Hm.
  set (d := Zpos (digits2_pos p)) in *.
  assert (0 < d) by (unfold d; lia).
  assert (S : cond_Zopp (sign_of n) (Zpos (mant prec p)) = n * 2 ^ (prec - d)).
  { rewrite Hm. unfold sign_of.
    destruct n as [|q|q]; try discriminate; simpl in A; injection A as ->;
      cbn [Z.ltb Z.compare cond_Zopp]; [reflexivity|].
    rewrite <- Pos2Z.opp_pos. ring. }
  unfold to_Q, Qeq. rewrite S.
  destruct (d + k - prec) as [|j|j] eqn:E; try lia; cbn [Qnum Qden inject_Z].
  - replace (prec - d) with 0 by lia. replace (- k) with 0 by lia.
    change (2 ^ 0) with 1. change (Zpos (Z.to_pos 1)) with 1. ring.
  - rewrite Z2Pos.id, Pos2Z.inj_pow by assumption.
    replace (Zpos j) with ((prec - d) + - k) by lia.
    rewrite Z.pow_add_r by lia. change (Zpos 2) with 2. ring.
Qed.

End Value.

(** ** The smoothing statement *)

Section Smooth.
Variable P : platform.
Hypothesis P_ok : platform_ok P.

(** The [double] of the right-hand side is the exact value
    [(4 * prev + (raw - prev)) / 4]. *)
Lemma smooth_double_dyadic (prev raw_ : Z) :
  in_int16 prev -> in_int16 raw_ -> int_sub_defined P raw_ prev ->
  smooth_double P prev raw_
  = Double.dyadic (double_prec P) (double_emax P) (4 * prev + (raw_ - prev)) (-2).
Proof.
  intros Hp Hr Hsub. destruct P_ok as (Hi & Hprec & Hemax).
  unfold smooth_double. rewrite int_sub_exact by (lia || assumption).
  unfold in_int16 in *.
  set (prec := double_prec P) in *. set (emax := double_emax P) in *.
  set (d := raw_ - prev).
  assert (Hd : -65535 <= d <= 65535) by (unfold d; lia).
  assert (Pw : 2 ^ 18 <= 2 ^ prec) by (apply Z.pow_le_mono_r; lia).
  change (2 ^ 18) with 262144 in Pw.
  assert (Fq : Double.fits prec emax 1 (-2)) by (unfold Double.fits; simpl Z.abs; lia).
  assert (Fd : Double.fits prec emax d (-2)) by (unfold Double.fits; lia).
  assert (Fd0 : Double.fits prec emax d 0) by (unfold Double.fits; lia).
  assert (Fp : Double.fits prec emax prev (-2 + 2)) by (unfold Double.fits; lia).
  assert (Fp4 : Double.fits prec emax (prev * 2 ^ 2) (-2)) by (unfold Double.fits; lia).
  assert (Fs : Double.fits prec emax (prev * 2 ^ 2 + d) (-2)) by (unfold Double.fits; lia).
  unfold Double.of_int, Double.quarter.
  change (binary_normalize prec emax ?n ?e false) with (Double.dyadic prec emax n e).
  assert (M : SFmul prec emax (Double.dyadic prec emax 1 (-2)) (Double.dyadic prec emax d 0)
              = Double.dyadic prec emax d (-2)).
  { destruct (Z.eq_dec d 0) as [E|N].
    - rewrite E. rewrite (dyadic_canon prec emax 1 (-2) 1) by auto. reflexivity.
    - rewrite SFmul_dyadic; auto; try lia.
      + f_equal; lia.
      + rewrite Z.mul_1_l. exact Fd. }
  rewrite M.
  change (Double.dyadic prec emax prev 0) with (Double.dyadic prec emax prev (-2 + 2)).
  rewrite <- dyadic_rescale by (auto; lia).
  rewrite SFadd_dyadic by auto.
  f_equal. lia.
Qed.

Lemma ema_spec_fraction (prev raw_ : Z) :
  (ema_spec prev raw_ == Qmake (4 * prev + (raw_ - prev)) 4)%Q.
Proof.
  unfold ema_spec, alpha, Qeq. cbn [Qnum Qden Qplus Qmult Qminus Qopp inject_Z].
  lia.
Qed.

Lemma Qtruncate_ema_spec (prev raw_ : Z) :
  Qtruncate (ema_spec prev raw_) = Z.quot (3 * prev + raw_) 4.
Proof.
  unfold Qtruncate, ema_spec, alpha.
  cbn [Qnum Qden Qplus Qmult Qminus Qopp inject_Z Pos.mul].
  f_equal. lia.
Qed.

(** No rounding error: the [double] is the rational of the specification. *)
Lemma smooth_double_value (prev raw_ : Z) :
  in_int16 prev -> in_int16 raw_ -> int_sub_defined P raw_ prev ->
  (Double.to_Q (smooth_double P prev raw_) == ema_spec prev raw_)%Q.
Proof.
  intros Hp Hr Hsub. rewrite smooth_double_dyadic by assumption.
  rewrite ema_spec_fraction.
  destruct P_ok as (_ & Hprec & Hemax). unfold in_int16 in *.
  assert (Pw : 2 ^ 18 <= 2 ^ double_prec P) by (apply Z.pow_le_mono_r; lia).
  change (2 ^ 18) with 262144 in Pw.
  rewrite to_Q_dyadic by (unfold Double.fits; lia).
  reflexivity.
Qed.

(** The stored value, in integer arithmetic. *)
Lemma smooth_quot (prev raw_ : Z) :
  in_int16 prev -> in_int16 raw_ -> int_sub_defined P raw_ prev ->
  smooth P prev raw_ = Z.quot (3 * prev + raw_) 4.
Proof.
  intros Hp Hr Hsub. unfold smooth. rewrite smooth_double_dyadic by assumption.
  destruct P_ok as (_ & Hprec & Hemax). unfold in_int16 in *.
  assert (Pw : 2 ^ 18 <= 2 ^ double_prec P) by (apply Z.pow_le_mono_r; lia).
  change (2 ^ 18) with 262144 in Pw.
  rewrite truncate_dyadic by (unfold Double.fits; lia).
  change (2 ^ (- -2)) with 4.
  replace (4 * prev + (raw_ - prev)) with (3 * prev + raw_) by lia.
  apply to_int16_small. unfold in_int16.
  Z.quot_rem_to_equations. lia.
Qed.

End Smooth.

(** ** The functions, one equation each *)

(** Evaluation of the assignments of a function one after the other, each
    on the state the previous ones left. *)
Ltac state_eval :=
  cbv beta iota zeta delta
    [update_motion_mpu6050_hand motion_set_mpu6050_hand_mode
     motion_data_event motion_data_answer motion_data_packet
     motion_mode_event motion_mode_answer motion_mode_packet
     mode_hardware gate next_aa next_gv
     mpuHandInterrupt aaRaw aa aa0 gvRaw gv gv0 skipPacket inBinPacket trace
     set_mpuHandInterrupt set_aaRaw set_aa set_aa0 set_gvRaw set_gv set_gv0
     set_skipPacket emit with_x with_y with_z x y z nth skipn
     motion_data_payload negb].

Section Equations.
Variable P : platform.
Variable cb : callbacks.

Lemma truthy_0 : truthy 0 = false.
Proof. reflexivity. Qed.

Lemma update_equation (r : motion6) (s : state) :
  update_motion_mpu6050_hand P cb r s
  = State (mpuHandInterrupt s)
      (Vec (ax r) (ay r) (az r)) (next_aa P r s)
      (Vec (x (aa s)) (y (aa s)) (z (aa s)))
      (Vec (gx r) (gy r) (gz r)) (next_gv P r s)
      (Vec (x (gv s)) (y (gv s)) (z (gv s)))
      (match motion_data_answer cb (motion_data_payload (next_aa P r s) (next_gv P r s)) with
       | Some v => v
       | None => 0
       end)
      (inBinPacket s)
      (trace s ++ mpuHand getMotion6
         :: motion_data_event cb (motion_data_payload (next_aa P r s) (next_gv P r s))).
Proof.
  state_eval.
  destruct (kg_evt_motion_data cb) as [f|].
  - match goal with |- context [truthy ?v] => destruct (truthy v) end;
      rewrite <- ?app_assoc; reflexivity.
  - rewrite truthy_0, <- app_assoc. reflexivity.
Qed.

Lemma set_mode_equation (mode : Z) (s : state) :
  motion_set_mpu6050_hand_mode cb mode s
  = State (if truthy mode then true else mpuHandInterrupt s)
      (aaRaw s) (if truthy mode then Vec 0 0 0 else aa s) (aa0 s)
      (gvRaw s) (if truthy mode then Vec 0 0 0 else gv s) (gv0 s)
      (if inBinPacket s then skipPacket s
       else match motion_mode_answer cb mode with Some v => v | None => 0 end)
      (inBinPacket s)
      (trace s ++ mode_hardware mode
         ++ (if inBinPacket s then [] else motion_mode_event cb mode)).
Proof.
  destruct s as [latch ar a a0 gr g g0 skip replay tr]. state_eval.
  destruct (truthy mode); destruct replay;
    try (destruct (kg_evt_motion_mode cb) as [f|]);
    try (match goal with
         | |- context [truthy (?g ?i ?m)] => destruct (truthy (g i m))
         end);
    rewrite ?truthy_0; repeat rewrite <- app_assoc; cbn [app]; reflexivity.
Qed.

End Equations.

(** ** What an update leaves in the state *)

Section Update.
Variable P : platform.
Variable cb : callbacks.

Lemma update_filtered (r : motion6) (s : state) (a : axis) :
  filtered a (update_motion_mpu6050_hand P cb r s)
  = smooth P (filtered a s) (sample a r).
Proof. rewrite update_equation. destruct a; reflexivity. Qed.

Lemma update_shadow (r : motion6) (s : state) (a : axis) :
  shadow a (update_motion_mpu6050_hand P cb r s) = filtered a s.
Proof. rewrite update_equation. destruct a; reflexivity. Qed.

Lemma update_raw (r : motion6) (s : state) (a : axis) :
  raw a (update_motion_mpu6050_hand P cb r s) = sample a r.
Proof. rewrite update_equation. destruct a; reflexivity. Qed.

Lemma update_mpuHandInterrupt (r : motion6) (s : state) :
  mpuHandInterrupt (update_motion_mpu6050_hand P cb r s) = mpuHandInterrupt s.
Proof. rewrite update_equation. reflexivity. Qed.

Lemma update_trace (r : motion6) (s : state) :
  trace (update_motion_mpu6050_hand P cb r s)
  = trace s ++ mpuHand getMotion6
      :: motion_data_event cb (motion_data_payload (next_aa P r s) (next_gv P r s)).
Proof. rewrite update_equation. reflexivity. Qed.

Lemma update_aa_gv (r : motion6) (s : state) :
  aa (update_motion_mpu6050_hand P cb r s) = next_aa P r s /\
  gv (update_motion_mpu6050_hand P cb r s) = next_gv P r s.
Proof. rewrite update_equation. split; reflexivity. Qed.

Lemma smooth_in_int16 (prev raw_ : Z) : in_int16 (smooth P prev raw_).
Proof. apply to_int16_range. Qed.

Lemma filtered_in_int16 (s : state) (a : axis) :
  state_ok s -> in_int16 (filtered a s).
Proof.
  intros ((? & ? & ?) & (? & ? & ?)). destruct a; assumption.
Qed.

Lemma sample_in_int16 (r : motion6) (a : axis) :
  motion6_ok r -> in_int16 (sample a r).
Proof.
  intros (? & ? & ? & ? & ? & ?). destruct a; assumption.
Qed.

Lemma update_state_ok (r : motion6) (s : state) :
  state_ok (update_motion_mpu6050_hand P cb r s).
Proof.
  rewrite update_equation. unfold state_ok, vec_ok, next_aa, next_gv.
  cbn [aa gv x y z]. repeat split; apply smooth_in_int16.
Qed.

Lemma hold_state_ok (n : nat) (r : motion6) (s : state) :
  state_ok s -> state_ok (hold P cb n r s).
Proof.
  intro H. destruct n as [|n]; [exact H | apply update_state_ok].
Qed.

End Update.

(** ** The smoothing filter *)

(** Where the difference [raw - filtered_prev] is an [int], as it always
    is when [int] has 17 bits or more: for each of the six axes the double
    the filter statement computes is exactly
    [filtered_prev + 0.25 * (raw - filtered_prev)], the value stored is that
    double converted to a 16-bit integer, that is the exact value with its
    fraction discarded, and it depends on the previous value and the
    reading of its own axis only. *)
Theorem update_filter_ema (P : platform) (cb : callbacks) (r : motion6)
    (s : state) (a : axis) :
  platform_ok P -> motion6_ok r -> state_ok s ->
  int_sub_defined P (sample a r) (filtered a s) ->
  (Double.to_Q (smooth_double P (filtered a s) (sample a r))
   == ema_spec (filtered a s) (sample a r))%Q /\
  filtered a (update_motion_mpu6050_hand P cb r s)
  = to_int16 (Double.truncate (smooth_double P (filtered a s) (sample a r))) /\
  filtered a (update_motion_mpu6050_hand P cb r s)
  = Qtruncate (ema_spec (filtered a s) (sample a r)) /\
  in_int16 (Qtruncate (ema_spec (filtered a s) (sample a r))).
Proof.
  intros HP Hr Hs Hsub.
  pose proof (filtered_in_int16 s a Hs) as Hf.
  pose proof (sample_in_int16 r a Hr) as Hv.
  rewrite update_filtered, Qtruncate_ema_spec.
  repeat split.
  - apply smooth_double_value; assumption.
  - apply smooth_quot; assumption.
  - rewrite <- (smooth_quot P HP) by assumption. apply smooth_in_int16.
  - rewrite <- (smooth_quot P HP) by assumption. apply smooth_in_int16.
Qed.

Lemma update_filter_ema_witness :
  (Double.to_Q (smooth_double arm_eabi (filtered AX power_on) (sample AX push))
   == ema_spec (filtered AX power_on) (sample AX push))%Q /\
  filtered AX (update_motion_mpu6050_hand arm_eabi no_callbacks push power_on)
  = to_int16 (Double.truncate
                (smooth_double arm_eabi (filtered AX power_on) (sample AX push))) /\
  filtered AX (update_motion_mpu6050_hand arm_eabi no_callbacks push power_on)
  = Qtruncate (ema_spec (filtered AX power_on) (sample AX push)) /\
  in_int16 (Qtruncate (ema_spec (filtered AX power_on) (sample AX push))).
Proof.
  apply (update_filter_ema arm_eabi no_callbacks push power_on AX).
  - unfold platform_ok; simpl; lia.
  - unfold motion6_ok, in_int16; simpl; lia.
  - unfold state_ok, vec_ok, in_int16; simpl; lia.
  - unfold int_sub_defined; simpl; lia.
Defined.

(** ** One filter step in integer arithmetic *)

Lemma quot_step_between (prev raw_ : Z) :
  between prev (Z.quot (3 * prev + raw_) 4) raw_.
Proof. unfold between. Z.quot_rem_to_equations. lia. Qed.

Lemma quot_step_closer (prev raw_ : Z) :
  Z.abs (raw_ - Z.quot (3 * prev + raw_) 4)
  <= Z.max 3 (Z.abs (raw_ - prev) - 1).
Proof. Z.quot_rem_to_equations. lia. Qed.

Lemma between_abs (a b c : Z) : between a b c -> Z.abs (c - b) <= Z.abs (c - a).
Proof. unfold between. lia. Qed.

Section Hold.
Variable P : platform.
Variable cb : callbacks.
Hypothesis P_ok : platform_ok P.

Lemma hold_step_defined (n : nat) (r : motion6) (s : state) (a : axis) :
  motion6_ok r -> state_ok s ->
  int_sub_defined P (sample a r) (filtered a (hold P cb n r s)) ->
  filtered a (hold P cb (S n) r s)
  = Z.quot (3 * filtered a (hold P cb n r s) + sample a r) 4.
Proof.
  intros Hr Hs Hsub. cbn [hold]. rewrite update_filtered.
  apply smooth_quot;
    [assumption | | apply sample_in_int16; assumption | assumption].
  apply filtered_in_int16, hold_state_ok, Hs.
Qed.

(** The filtered value stays between the first one and the raw value, so
    the subtraction stays defined when it was at the first update. *)
Lemma hold_between_first (n : nat) (r : motion6) (s : state) (a : axis) :
  motion6_ok r -> state_ok s ->
  int_sub_defined P (sample a r) (filtered a s) ->
  between (filtered a s) (filtered a (hold P cb n r s)) (sample a r).
Proof.
  intros Hr Hs Hsub. destruct P_ok as (Hi & _).
  induction n as [|n IH].
  - cbn [hold]. unfold between. lia.
  - rewrite hold_step_defined; try assumption.
    + pose proof (quot_step_between (filtered a (hold P cb n r s)) (sample a r)).
      unfold between in *. lia.
    + apply (int_sub_defined_between P (filtered a s)); [lia | assumption | exact IH].
Qed.

Lemma hold_defined (n : nat) (r : motion6) (s : state) (a : axis) :
  motion6_ok r -> state_ok s ->
  int_sub_defined P (sample a r) (filtered a s) ->
  int_sub_defined P (sample a r) (filtered a (hold P cb n r s)).
Proof.
  intros Hr Hs Hsub. destruct P_ok as (Hi & _).
  apply (int_sub_defined_between P (filtered a s)); [lia | assumption |].
  apply hold_between_first; assumption.
Qed.

Lemma hold_step (n : nat) (r : motion6) (s : state) (a : axis) :
  motion6_ok r -> state_ok s ->
  int_sub_defined P (sample a r) (filtered a s) ->
  filtered a (hold P cb (S n) r s)
  = Z.quot (3 * filtered a (hold P cb n r s) + sample a r) 4.
Proof.
  intros Hr Hs Hsub. apply hold_step_defined; try assumption.
  apply hold_defined; assumption.
Qed.

Lemma hold_distance (n : nat) (r : motion6) (s : state) (a : axis) :
  motion6_ok r -> state_ok s ->
  int_sub_defined P (sample a r) (filtered a s) ->
  Z.abs (sample a r - filtered a (hold P cb n r s))
  <= Z.max 3 (Z.abs (sample a r - filtered a s) - Z.of_nat n).
Proof.
  intros Hr Hs Hsub. induction n as [|n IH].
  - cbn [hold]. lia.
  - rewrite hold_step by assumption.
    pose proof (quot_step_closer (filtered a (hold P cb n r s)) (sample a r)).
    lia.
Qed.

End Hold.

(** Where the first difference [raw - filtered] is an [int], as it always
    is when [int] has 17 bits or more (the later ones then are): with the
    reading held constant over consecutive updates, each filtered value
    lies between the one before it and the raw value, ends included, so
    the sequence moves toward the raw value without passing it and its
    distance to the raw value never grows; after [n] updates the distance
    is at most the larger of 3 and the first distance less [n]. *)
Theorem hold_monotone (P : platform) (cb : callbacks) (r : motion6) (s : state)
    (a : axis) (n : nat) :
  platform_ok P -> motion6_ok r -> state_ok s ->
  int_sub_defined P (sample a r) (filtered a s) ->
  between (filtered a (hold P cb n r s)) (filtered a (hold P cb (S n) r s))
    (sample a r) /\
  Z.abs (sample a r - filtered a (hold P cb (S n) r s))
  <= Z.abs (sample a r - filtered a (hold P cb n r s)) /\
  Z.abs (sample a r - filtered a (hold P cb n r s))
  <= Z.max 3 (Z.abs (sample a r - filtered a s) - Z.of_nat n).
Proof.
  intros HP Hr Hs Hsub.
  assert (B : between (filtered a (hold P cb n r s))
                (filtered a (hold P cb (S n) r s)) (sample a r)).
  { rewrite (hold_step P cb HP) by assumption. apply quot_step_between. }
  split; [exact B|]. split.
  - apply between_abs, B.
  - apply hold_distance; assumption.
Qed.

Lemma hold_monotone_witness :
  between (filtered AX (hold arm_eabi no_callbacks 2 push power_on))
    (filtered AX (hold arm_eabi no_callbacks 3 push power_on)) (sample AX push) /\
  Z.abs (sample AX push - filtered AX (hold arm_eabi no_callbacks 3 push power_on))
  <= Z.abs (sample AX push - filtered AX (hold arm_eabi no_callbacks 2 push power_on)) /\
  Z.abs (sample AX push - filtered AX (hold arm_eabi no_callbacks 2 push power_on))
  <= Z.max 3 (Z.abs (sample AX push - filtered AX power_on) - Z.of_nat 2).
Proof.
  apply (hold_monotone arm_eabi no_callbacks push power_on AX 2).
  - unfold platform_ok; simpl; lia.
  - unfold motion6_ok, in_int16; simpl; lia.
  - unfold state_ok, vec_ok, in_int16; simpl; lia.
  - unfold int_sub_defined; simpl; lia.
Defined.

(** C5. An update copies the filtered vectors into the shadow vectors
    before it computes the new ones: after it the shadow vectors hold the
    filtered state the call started from, whatever the reading, the new
    filtered value is computed from that shadow value and the raw value,
    and over consecutive updates the shadow is the filtered state the
    previous call left. No other function of the file writes the shadow
    vectors. *)
Theorem update_shadow_previous (P : platform) (cb : callbacks) (r : motion6)
    (s : state) :
  aa0 (update_motion_mpu6050_hand P cb r s) = aa s /\
  gv0 (update_motion_mpu6050_hand P cb r s) = gv s /\
  (forall a, shadow a (update_motion_mpu6050_hand P cb r s) = filtered a s) /\
  (forall a r', shadow a (update_motion_mpu6050_hand P cb r' s)
                = shadow a (update_motion_mpu6050_hand P cb r s)) /\
  (forall a, filtered a (update_motion_mpu6050_hand P cb r s)
             = smooth P (shadow a (update_motion_mpu6050_hand P cb r s))
                 (raw a (update_motion_mpu6050_hand P cb r s))) /\
  (forall a n, shadow a (hold P cb (S n) r s) = filtered a (hold P cb n r s)) /\
  (forall a mode, shadow a (motion_set_mpu6050_hand_mode cb mode s) = shadow a s) /\
  (forall a, shadow a (motion_mpu6050_hand_interrupt s) = shadow a s) /\
  (forall a, shadow a (setup_motion_mpu6050_hand s) = shadow a s).
Proof.
  repeat split.
  - rewrite update_equation. destruct (aa s); reflexivity.
  - rewrite update_equation. destruct (gv s); reflexivity.
  - intro a. apply update_shadow.
  - intros a r'. rewrite !update_shadow. reflexivity.
  - intro a. rewrite update_filtered, update_shadow, update_raw. reflexivity.
  - intros a n. cbn [hold]. apply update_shadow.
  - intros a mode. rewrite set_mode_equation. reflexivity.
Qed.

(** ** The event encoder *)

Lemma low_byte (v : Z) : to_uint8 (Z.land v 255) = v mod 256.
Proof.
  unfold to_uint8. change 255 with (Z.ones 8).
  rewrite Z.land_ones by lia. change (2 ^ 8) with 256.
  apply Z.mod_mod. lia.
Qed.

Lemma high_byte (v : Z) : to_uint8 (Z.shiftr v 8) = (v / 256) mod 256.
Proof.
  unfold to_uint8. rewrite Z.shiftr_div_pow2 by lia. reflexivity.
Qed.

Lemma le_int16_bytes (v : Z) :
  in_int16 v -> le_int16 (v mod 256) ((v / 256) mod 256) = v.
Proof.
  unfold in_int16, le_int16. intro H. cbv zeta.
  destruct (v mod 256 + 256 * ((v / 256) mod 256) <? 32768) eqn:E;
    [apply Z.ltb_lt in E | apply Z.ltb_ge in E];
    Z.div_mod_to_equations; lia.
Qed.

Lemma motion_data_payload_bytes (a g : VectorInt16) :
  motion_data_payload a g
  = [0; 3; 12] ++ le_bytes (x a) ++ le_bytes (y a) ++ le_bytes (z a)
      ++ le_bytes (x g) ++ le_bytes (y g) ++ le_bytes (z g).
Proof.
  unfold motion_data_payload, le_bytes. rewrite !low_byte, !high_byte.
  reflexivity.
Qed.

(** C2. The payload of the motion-data event has 15 bytes: 0, 3 and 12,
    then the six values in the order ax, ay, az, gx, gy, gz, each with its
    low byte first; every element is a byte, and reading the 12 data bytes
    back as little-endian signed 16-bit integers gives the six values. *)
Theorem motion_data_payload_roundtrip (a g : VectorInt16) :
  vec_ok a -> vec_ok g ->
  length (motion_data_payload a g) = 15%nat /\
  firstn 3 (motion_data_payload a g) = [0; 3; 12] /\
  skipn 3 (motion_data_payload a g)
  = le_bytes (x a) ++ le_bytes (y a) ++ le_bytes (z a)
      ++ le_bytes (x g) ++ le_bytes (y g) ++ le_bytes (z g) /\
  Forall in_uint8 (motion_data_payload a g) /\
  decode_motion_data (motion_data_payload a g) = Some (a, g).
Proof.
  intros (Hax & Hay & Haz) (Hgx & Hgy & Hgz).
  split; [reflexivity|]. split; [reflexivity|]. split.
  { rewrite motion_data_payload_bytes. reflexivity. }
  split.
  { unfold motion_data_payload.
    repeat (apply Forall_cons; [first [apply to_uint8_range | unfold in_uint8; lia]|]).
    apply Forall_nil. }
  rewrite motion_data_payload_bytes. cbn [app le_bytes decode_motion_data].
  rewrite !le_int16_bytes by assumption.
  destruct a, g; reflexivity.
Qed.

Lemma motion_data_payload_roundtrip_witness :
  length (motion_data_payload (Vec 1 (-1) 300) (Vec (-300) 0 32767)) = 15%nat /\
  firstn 3 (motion_data_payload (Vec 1 (-1) 300) (Vec (-300) 0 32767)) = [0; 3; 12] /\
  skipn 3 (motion_data_payload (Vec 1 (-1) 300) (Vec (-300) 0 32767))
  = le_bytes 1 ++ le_bytes (-1) ++ le_bytes 300
      ++ le_bytes (-300) ++ le_bytes 0 ++ le_bytes 32767 /\
  Forall in_uint8 (motion_data_payload (Vec 1 (-1) 300) (Vec (-300) 0 32767)) /\
  decode_motion_data (motion_data_payload (Vec 1 (-1) 300) (Vec (-300) 0 32767))
  = Some (Vec 1 (-1) 300, Vec (-300) 0 32767).
Proof.
  apply (motion_data_payload_roundtrip (Vec 1 (-1) 300) (Vec (-300) 0 32767));
    unfold vec_ok, in_int16; simpl; lia.
Defined.

(** The bytes of the example of the specification. *)
Example motion_data_payload_example :
  motion_data_payload (Vec 1 (-1) 300) (Vec (-300) 0 32767)
  = [0; 3; 12; 1; 0; 255; 255; 44; 1; 212; 254; 0; 0; 255; 127].
Proof. reflexivity. Qed.

(** The packet an update hands to the transport, when it hands one, carries
    the payload of the filtered vectors the update has just stored. *)
Lemma update_sent (P : platform) (cb : callbacks) (r : motion6) (s : state) :
  sent (trace (update_motion_mpu6050_hand P cb r s))
  = sent (trace s)
      ++ gate (motion_data_answer cb
                 (motion_data_payload (aa (update_motion_mpu6050_hand P cb r s))
                    (gv (update_motion_mpu6050_hand P cb r s))))
           (motion_data_packet
              (motion_data_payload (aa (update_motion_mpu6050_hand P cb r s))
                 (gv (update_motion_mpu6050_hand P cb r s)))).
Proof.
  destruct (update_aa_gv P cb r s) as [-> ->].
  rewrite update_trace. unfold sent. rewrite filter_app. f_equal.
  unfold motion_data_event, motion_data_answer, gate, motion_data_packet.
  cbn [filter is_send is_read].
  destruct (kg_evt_motion_data cb) as [f|]; cbn [filter is_send]; [|reflexivity].
  match goal with |- context [truthy ?v] => destruct (truthy v) end; reflexivity.
Qed.

(** ** The dispatch gate and the mode controller *)

Lemma sent_app (l1 l2 : list effect) : sent (l1 ++ l2) = sent l1 ++ sent l2.
Proof. apply filter_app. Qed.

Lemma truthy_true (v : Z) : v <> 0 -> truthy v = true.
Proof. intro H. unfold truthy. apply Z.eqb_neq in H. rewrite H. reflexivity. Qed.

Lemma sent_mode_hardware (mode : Z) : sent (mode_hardware mode) = [].
Proof. unfold mode_hardware. destruct (truthy mode); reflexivity. Qed.

Lemma sent_motion_mode_event (cb : callbacks) (mode : Z) :
  sent (motion_mode_event cb mode)
  = gate (motion_mode_answer cb mode) (motion_mode_packet mode).
Proof.
  unfold motion_mode_event, motion_mode_answer, gate, motion_mode_packet.
  destruct (kg_evt_motion_mode cb) as [f|]; cbn [sent filter is_send]; [|reflexivity].
  destruct (truthy (f 0 mode)); reflexivity.
Qed.

Lemma set_mode_trace (cb : callbacks) (mode : Z) (s : state) :
  trace (motion_set_mpu6050_hand_mode cb mode s)
  = trace s ++ mode_hardware mode
      ++ (if inBinPacket s then [] else motion_mode_event cb mode).
Proof. rewrite set_mode_equation. reflexivity. Qed.

Lemma set_mode_sent (cb : callbacks) (mode : Z) (s : state) :
  sent (trace (motion_set_mpu6050_hand_mode cb mode s))
  = sent (trace s)
      ++ (if inBinPacket s then []
          else gate (motion_mode_answer cb mode) (motion_mode_packet mode)).
Proof.
  rewrite set_mode_trace, !sent_app, sent_mode_hardware. cbn [app].
  destruct (inBinPacket s); [reflexivity | apply f_equal, sent_motion_mode_event].
Qed.

(** C6. For the motion-data event of an update and for the mode-change
    event of a mode change made outside a binary command, alike: without a
    callback, or with a callback that answers zero, exactly one packet, the
    event's, is handed to the transport; with a callback that answers a
    nonzero value none is. The payload of the data event is that of the
    vectors [next_aa], [next_gv] the update stores. *)
Theorem dispatch_gate (P : platform) (cb : callbacks) (r : motion6) (mode : Z)
    (s : state) :
  (kg_evt_motion_data cb = None ->
   sent (trace (update_motion_mpu6050_hand P cb r s))
   = sent (trace s)
       ++ [motion_data_packet (motion_data_payload (next_aa P r s) (next_gv P r s))]) /\
  (forall f, kg_evt_motion_data cb = Some f ->
   f 0 3 12 (skipn 3 (motion_data_payload (next_aa P r s) (next_gv P r s))) = 0 ->
   sent (trace (update_motion_mpu6050_hand P cb r s))
   = sent (trace s)
       ++ [motion_data_packet (motion_data_payload (next_aa P r s) (next_gv P r s))]) /\
  (forall f, kg_evt_motion_data cb = Some f ->
   f 0 3 12 (skipn 3 (motion_data_payload (next_aa P r s) (next_gv P r s))) <> 0 ->
   sent (trace (update_motion_mpu6050_hand P cb r s)) = sent (trace s)) /\
  (inBinPacket s = false -> kg_evt_motion_mode cb = None ->
   sent (trace (motion_set_mpu6050_hand_mode cb mode s))
   = sent (trace s) ++ [motion_mode_packet mode]) /\
  (forall f, inBinPacket s = false -> kg_evt_motion_mode cb = Some f ->
   f 0 mode = 0 ->
   sent (trace (motion_set_mpu6050_hand_mode cb mode s))
   = sent (trace s) ++ [motion_mode_packet mode]) /\
  (forall f, inBinPacket s = false -> kg_evt_motion_mode cb = Some f ->
   f 0 mode <> 0 ->
   sent (trace (motion_set_mpu6050_hand_mode cb mode s)) = sent (trace s)).
Proof.
  rewrite update_sent, set_mode_sent.
  destruct (update_aa_gv P cb r s) as [-> ->].
  unfold motion_data_answer, motion_mode_answer, gate.
  repeat split.
  - intros ->. reflexivity.
  - intros f -> ->. reflexivity.
  - intros f -> H. rewrite (truthy_true _ H). apply app_nil_r.
  - intros -> ->. reflexivity.
  - intros f -> -> ->. reflexivity.
  - intros f -> -> H. rewrite (truthy_true _ H). apply app_nil_r.
Qed.

Lemma dispatch_gate_witness :
  sent (trace (update_motion_mpu6050_hand arm_eabi vetoing push power_on))
  = sent (trace power_on) /\
  sent (trace (motion_set_mpu6050_hand_mode observing 1 power_on))
  = sent (trace power_on) ++ [motion_mode_packet 1].
Proof.
  destruct (dispatch_gate arm_eabi vetoing push 1 power_on)
    as (_ & _ & Hveto & _).
  destruct (dispatch_gate arm_eabi observing push 1 power_on)
    as (_ & _ & _ & _ & Hpass & _).
  split.
  - apply (Hveto (fun _ _ _ _ => 1)); [reflexivity | discriminate].
  - apply (Hpass (fun _ _ => 0)); reflexivity.
Defined.

(** C7. A mode change always makes the hardware calls of its branch. Made
    outside a binary command it then builds the event with payload
    [0; mode]: the callback, when registered, is called with 0 and the
    mode, and the packet is sent unless the callback answers a nonzero
    value. Made while a binary command is replayed it leaves nothing but
    the hardware calls: no callback call and no packet. *)
Theorem mode_change_event (cb : callbacks) (mode : Z) (s : state) :
  (inBinPacket s = true ->
   trace (motion_set_mpu6050_hand_mode cb mode s) = trace s ++ mode_hardware mode) /\
  (inBinPacket s = false -> kg_evt_motion_mode cb = None ->
   trace (motion_set_mpu6050_hand_mode cb mode s)
   = trace s ++ mode_hardware mode
       ++ [send_keyglove_packet KG_PACKET_TYPE_EVENT 2 KG_PACKET_CLASS_MOTION
             KG_PACKET_ID_EVT_MOTION_MODE [0; mode]]) /\
  (forall f, inBinPacket s = false -> kg_evt_motion_mode cb = Some f ->
   f 0 mode = 0 ->
   trace (motion_set_mpu6050_hand_mode cb mode s)
   = trace s ++ mode_hardware mode
       ++ [call_kg_evt_motion_mode 0 mode;
           send_keyglove_packet KG_PACKET_TYPE_EVENT 2 KG_PACKET_CLASS_MOTION
             KG_PACKET_ID_EVT_MOTION_MODE [0; mode]]) /\
  (forall f, inBinPacket s = false -> kg_evt_motion_mode cb = Some f ->
   f 0 mode <> 0 ->
   trace (motion_set_mpu6050_hand_mode cb mode s)
   = trace s ++ mode_hardware mode ++ [call_kg_evt_motion_mode 0 mode]) /\
  (mode <> 0 ->
   mode_hardware mode
   = [attachInterrupt_FUSION_FALLING; mpuHand (setSleepEnabled false)]) /\
  mode_hardware 0 = [mpuHand (setSleepEnabled true); detachInterrupt_FUSION].
Proof.
  rewrite set_mode_trace. unfold motion_mode_event, gate, motion_mode_packet.
  repeat split.
  - intros ->. rewrite app_nil_r. reflexivity.
  - intros -> ->. reflexivity.
  - intros f -> -> ->. reflexivity.
  - intros f -> -> H. rewrite (truthy_true _ H). reflexivity.
  - intro H. unfold mode_hardware. rewrite (truthy_true _ H). reflexivity.
Qed.

Lemma mode_change_event_witness :
  trace (motion_set_mpu6050_hand_mode no_callbacks 1
           (State false zero3 zero3 zero3 zero3 zero3 zero3 0 true []))
  = [] ++ mode_hardware 1.
Proof.
  destruct (mode_change_event no_callbacks 1
              (State false zero3 zero3 zero3 zero3 zero3 zero3 0 true []))
    as (H & _).
  apply H. reflexivity.
Defined.

Lemma set_mode_enabled (cb : callbacks) (mode : Z) (s : state) :
  mode <> 0 ->
  aa (motion_set_mpu6050_hand_mode cb mode s) = Vec 0 0 0 /\
  gv (motion_set_mpu6050_hand_mode cb mode s) = Vec 0 0 0 /\
  mpuHandInterrupt (motion_set_mpu6050_hand_mode cb mode s) = true.
Proof.
  intro H. rewrite set_mode_equation. cbn [aa gv mpuHandInterrupt].
  rewrite (truthy_true _ H). repeat split.
Qed.

Lemma set_mode_disabled (cb : callbacks) (s : state) :
  aa (motion_set_mpu6050_hand_mode cb 0 s) = aa s /\
  gv (motion_set_mpu6050_hand_mode cb 0 s) = gv s /\
  mpuHandInterrupt (motion_set_mpu6050_hand_mode cb 0 s) = mpuHandInterrupt s.
Proof. rewrite set_mode_equation. repeat split. Qed.

(** C10. Every nonzero mode byte enables: the filtered vectors are zeroed,
    the latch is forced, the interrupt is attached and the sensor woken;
    only 0 disables. The event carries the mode byte as it was passed, in
    the callback's argument and in the payload [0; mode], not a normalised
    0 or 1. *)
Theorem nonzero_mode_enables (cb : callbacks) (mode : Z) (s : state) :
  in_uint8 mode -> mode <> 0 ->
  aa (motion_set_mpu6050_hand_mode cb mode s) = Vec 0 0 0 /\
  gv (motion_set_mpu6050_hand_mode cb mode s) = Vec 0 0 0 /\
  mpuHandInterrupt (motion_set_mpu6050_hand_mode cb mode s) = true /\
  trace (motion_set_mpu6050_hand_mode cb mode s)
  = trace s
      ++ [attachInterrupt_FUSION_FALLING; mpuHand (setSleepEnabled false)]
      ++ (if inBinPacket s then []
          else match kg_evt_motion_mode cb with
               | Some f =>
                   call_kg_evt_motion_mode 0 mode
                     :: (if f 0 mode =? 0
                         then [send_keyglove_packet KG_PACKET_TYPE_EVENT 2
                                 KG_PACKET_CLASS_MOTION
                                 KG_PACKET_ID_EVT_MOTION_MODE [0; mode]]
                         else [])
               | None =>
                   [send_keyglove_packet KG_PACKET_TYPE_EVENT 2
                      KG_PACKET_CLASS_MOTION KG_PACKET_ID_EVT_MOTION_MODE [0; mode]]
               end) /\
  aa (motion_set_mpu6050_hand_mode cb 0 s) = aa s /\
  gv (motion_set_mpu6050_hand_mode cb 0 s) = gv s /\
  mpuHandInterrupt (motion_set_mpu6050_hand_mode cb 0 s) = mpuHandInterrupt s /\
  firstn 2 (skipn (length (trace s)) (trace (motion_set_mpu6050_hand_mode cb 0 s)))
  = [mpuHand (setSleepEnabled true); detachInterrupt_FUSION].
Proof.
  intros _ H.
  destruct (set_mode_enabled cb mode s H) as (Ha & Hg & Hl).
  destruct (set_mode_disabled cb s) as (Ha0 & Hg0 & Hl0).
  repeat split; try assumption.
  - rewrite set_mode_trace. unfold mode_hardware, motion_mode_event, gate,
      motion_mode_packet, truthy.
    apply Z.eqb_neq in H. rewrite H. cbn [negb].
    destruct (inBinPacket s); [reflexivity|].
    destruct (kg_evt_motion_mode cb) as [f|]; [|reflexivity].
    destruct (f 0 mode =? 0); reflexivity.
  - rewrite set_mode_trace, skipn_app, skipn_all, Nat.sub_diag.
    destruct (inBinPacket s); reflexivity.
Qed.

Lemma nonzero_mode_enables_witness :
  trace (motion_set_mpu6050_hand_mode observing 2 at_100)
  = [attachInterrupt_FUSION_FALLING; mpuHand (setSleepEnabled false);
     call_kg_evt_motion_mode 0 2;
     send_keyglove_packet KG_PACKET_TYPE_EVENT 2 KG_PACKET_CLASS_MOTION
       KG_PACKET_ID_EVT_MOTION_MODE [0; 2]].
Proof.
  destruct (nonzero_mode_enables observing 2 at_100) as (_ & _ & _ & H & _).
  - unfold in_uint8. lia.
  - discriminate.
  - exact H.
Defined.

(** C9. The update leaves the latch as it found it, however often it runs,
    and so does a mode change to 0; the handler sets it, a mode change to a
    nonzero mode sets it, and the setup clears it. *)
Theorem latch_writers (P : platform) (cb : callbacks) (r : motion6) (mode : Z)
    (n : nat) (s : state) :
  mpuHandInterrupt (update_motion_mpu6050_hand P cb r s) = mpuHandInterrupt s /\
  mpuHandInterrupt (hold P cb n r s) = mpuHandInterrupt s /\
  mpuHandInterrupt (motion_set_mpu6050_hand_mode cb mode s)
  = (if mode =? 0 then mpuHandInterrupt s else true) /\
  mpuHandInterrupt (motion_mpu6050_hand_interrupt s) = true /\
  mpuHandInterrupt (setup_motion_mpu6050_hand s) = false.
Proof.
  split; [apply update_mpuHandInterrupt|]. split.
  { induction n as [|n IH]; [reflexivity|].
    cbn [hold]. rewrite update_mpuHandInterrupt. exact IH. }
  split; [|split; reflexivity].
  rewrite set_mode_equation. cbn [mpuHandInterrupt]. unfold truthy.
  destruct (mode =? 0); reflexivity.
Qed.

(** C4. Whatever the filtered state was, a change to a nonzero mode leaves
    both filtered vectors at zero and the latch set; the next update
    therefore filters against zero, and with a reading of zero on every
    axis it leaves zero on every axis. *)
Theorem enable_resets_filter (P : platform) (cb : callbacks) (mode : Z)
    (r : motion6) (s : state) :
  platform_ok P -> mode <> 0 ->
  aa (motion_set_mpu6050_hand_mode cb mode s) = Vec 0 0 0 /\
  gv (motion_set_mpu6050_hand_mode cb mode s) = Vec 0 0 0 /\
  mpuHandInterrupt (motion_set_mpu6050_hand_mode cb mode s) = true /\
  (forall a,
     filtered a (update_motion_mpu6050_hand P cb r
                   (motion_set_mpu6050_hand_mode cb mode s))
     = smooth P 0 (sample a r)) /\
  (forall a,
     filtered a (update_motion_mpu6050_hand P cb still
                   (motion_set_mpu6050_hand_mode cb mode s))
     = 0).
Proof.
  intros HP H.
  destruct (set_mode_enabled cb mode s H) as (Ha & Hg & Hl).
  assert (Z0 : forall a, filtered a (motion_set_mpu6050_hand_mode cb mode s) = 0).
  { intro a. unfold filtered. rewrite Ha, Hg. destruct a; reflexivity. }
  repeat split; try assumption.
  - intro a. rewrite update_filtered, Z0. reflexivity.
  - intro a. rewrite update_filtered, Z0.
    rewrite (smooth_quot P HP);
      [destruct a; reflexivity | unfold in_int16; lia
      | destruct a; unfold in_int16; simpl; lia
      | apply int_sub_defined_0;
        [apply HP | destruct a; unfold in_int16; simpl; lia]].
Qed.

Lemma enable_resets_filter_witness :
  aa (update_motion_mpu6050_hand arm_eabi no_callbacks still
        (motion_set_mpu6050_hand_mode no_callbacks 1 at_100))
  = Vec 0 0 0.
Proof.
  destruct (enable_resets_filter arm_eabi no_callbacks 1 still at_100)
    as (_ & _ & _ & _ & H).
  - unfold platform_ok; simpl; lia.
  - discriminate.
  - pose proof (H AX) as Hx. pose proof (H AY) as Hy. pose proof (H AZ) as Hz.
    unfold filtered in Hx, Hy, Hz.
    destruct (aa _) as [vx vy vz]. cbn [x y z] in Hx, Hy, Hz.
    rewrite Hx, Hy, Hz. reflexivity.
Defined.

(** Without the reset the same update would leave 75 on every axis. *)
Example update_without_reset :
  aa (update_motion_mpu6050_hand arm_eabi no_callbacks still at_100)
  = Vec 75 75 75.
Proof. reflexivity. Qed.

(** ** The latch protocol of the polling loop *)

Lemma reads_app (l1 l2 : list effect) : reads (l1 ++ l2) = (reads l1 + reads l2)%nat.
Proof. unfold reads. rewrite filter_app. apply length_app. Qed.

Lemma reads_motion_data_event (cb : callbacks) (payload : list Z) :
  reads (motion_data_event cb payload) = 0%nat.
Proof.
  unfold motion_data_event, gate, motion_data_packet.
  destruct (kg_evt_motion_data cb) as [f|]; [|reflexivity].
  destruct (truthy _); reflexivity.
Qed.

Lemma update_reads (P : platform) (cb : callbacks) (r : motion6) (s : state) :
  reads (trace (update_motion_mpu6050_hand P cb r s)) = S (reads (trace s)).
Proof.
  rewrite update_trace.
  change (?e :: ?l) with ([e] ++ l).
  rewrite !reads_app, reads_motion_data_event. cbn. lia.
Qed.

Lemma update_sent_length (P : platform) (cb : callbacks) (r : motion6) (s : state) :
  (length (sent (trace (update_motion_mpu6050_hand P cb r s)))
   <= S (length (sent (trace s))))%nat.
Proof.
  rewrite update_sent, length_app. unfold gate.
  destruct (motion_data_answer cb _) as [v|]; [destruct (truthy v)|]; cbn; lia.
Qed.

(** C3. When the latch is clear a poll changes nothing: no read, no
    filter step, no packet. When it is set a poll makes exactly one burst
    read and one filter step, hands at most one packet to the transport and
    leaves the latch clear, so that a second poll without a new interrupt
    does nothing; clearing the latch before or after the sequence gives the
    same state. *)
Theorem main_loop_poll_latch (P : platform) (cb : callbacks) (r r' : motion6)
    (s : state) :
  (mpuHandInterrupt s = false -> main_loop_poll P cb r s = s) /\
  (mpuHandInterrupt s = true ->
   reads (trace (main_loop_poll P cb r s)) = S (reads (trace s)) /\
   (forall a, filtered a (main_loop_poll P cb r s)
              = smooth P (filtered a s) (sample a r)) /\
   (length (sent (trace (main_loop_poll P cb r s)))
    <= S (length (sent (trace s))))%nat /\
   mpuHandInterrupt (main_loop_poll P cb r s) = false /\
   main_loop_poll P cb r' (main_loop_poll P cb r s) = main_loop_poll P cb r s) /\
  reads (trace (main_loop_poll P cb r'
                  (main_loop_poll P cb r (motion_mpu6050_hand_interrupt s))))
  = S (reads (trace s)) /\
  main_loop_poll_clear_last P cb r s = main_loop_poll P cb r s.
Proof.
  assert (L : forall t, mpuHandInterrupt t = true ->
              mpuHandInterrupt (main_loop_poll P cb r t) = false).
  { intros t Ht. unfold main_loop_poll. rewrite Ht.
    rewrite update_mpuHandInterrupt. reflexivity. }
  assert (N : forall q t, mpuHandInterrupt t = false -> main_loop_poll P cb q t = t).
  { intros q t Ht. unfold main_loop_poll. rewrite Ht. reflexivity. }
  assert (R : forall t, mpuHandInterrupt t = true ->
              reads (trace (main_loop_poll P cb r t)) = S (reads (trace t))).
  { intros t Ht. unfold main_loop_poll. rewrite Ht, update_reads. reflexivity. }
  split; [apply N|]. split; [|split].
  - intro Hs. split; [apply R, Hs|]. split; [|split; [|split]].
    + intro a. unfold main_loop_poll. rewrite Hs, update_filtered.
      destruct a; reflexivity.
    + unfold main_loop_poll. rewrite Hs.
      apply (update_sent_length P cb r (set_mpuHandInterrupt false s)).
    + apply L, Hs.
    + apply N, L, Hs.
  - rewrite N by (apply L; reflexivity). rewrite R by reflexivity. reflexivity.
  - unfold main_loop_poll_clear_last, main_loop_poll.
    destruct (mpuHandInterrupt s); [|reflexivity].
    rewrite !update_equation. reflexivity.
Qed.

Lemma main_loop_poll_latch_witness :
  main_loop_poll arm_eabi no_callbacks push power_on = power_on /\
  mpuHandInterrupt
    (main_loop_poll arm_eabi no_callbacks push
       (motion_mpu6050_hand_interrupt power_on)) = false.
Proof.
  destruct (main_loop_poll_latch arm_eabi no_callbacks push push power_on)
    as (Hclear & _).
  destruct (main_loop_poll_latch arm_eabi no_callbacks push push
              (motion_mpu6050_hand_interrupt power_on))
    as (_ & Hset & _).
  split.
  - apply Hclear. reflexivity.
  - apply Hset. reflexivity.
Defined.

(** ** Remarks *)

(** The states the theorems speak of are those the functions produce: the
    filtered vectors hold 16-bit values at power-on and after every call. *)
Lemma state_ok_invariant (P : platform) (cb : callbacks) (r : motion6) (mode : Z)
    (s : state) :
  state_ok power_on /\
  state_ok (update_motion_mpu6050_hand P cb r s) /\
  (state_ok s -> state_ok (motion_set_mpu6050_hand_mode cb mode s)) /\
  (state_ok s -> state_ok (motion_mpu6050_hand_interrupt s)) /\
  (state_ok s -> state_ok (setup_motion_mpu6050_hand s)).
Proof.
  split; [unfold state_ok, vec_ok, in_int16; simpl; lia|].
  split; [apply update_state_ok|]. split; [|split; intro H; exact H].
  intro H. rewrite set_mode_equation. unfold state_ok. cbn [aa gv].
  destruct (truthy mode); [|exact H].
  unfold vec_ok, in_int16; simpl; lia.
Qed.

(** On a target whose [int] has 17 bits or more the difference of the
    filter statement is always an [int]. *)
Lemma int_sub_defined_update (P : platform) (r : motion6) (s : state) (a : axis) :
  17 <= int_bits P -> motion6_ok r -> state_ok s ->
  int_sub_defined P (sample a r) (filtered a s).
Proof.
  intros Hw Hr Hs. apply int_sub_defined_wide; [assumption | |].
  - apply sample_in_int16, Hr.
  - apply filtered_in_int16, Hs.
Qed.

(** With a 16-bit [int] it need not be: from -20000 toward 20000 the
    difference 40000 is not an [int]; reduced to 16 bits it is -25536 and
    the stored value moves away from the raw value. *)
Example smooth_int16_overflow :
  ~ int_sub_defined avr 20000 (-20000) /\
  int_sub avr 20000 (-20000) = -25536 /\
  smooth avr (-20000) 20000 = -26384 /\
  smooth arm_eabi (-20000) 20000 = -10000.
Proof.
  split; [unfold int_sub_defined; simpl; lia|].
  repeat split; reflexivity.
Qed.

(** The 32-bit and the 64-bit format agree on the filter. *)
Example smooth_formats_agree :
  smooth avr 100 0 = 75 /\ smooth arm_eabi 100 0 = 75 /\
  smooth avr (-3) 0 = -2 /\ smooth arm_eabi (-3) 0 = -2 /\
  smooth avr 0 3 = 0 /\ smooth arm_eabi 0 3 = 0.
Proof. repeat split; reflexivity. Qed.

(** The end-to-end example of the specification: latch set, reading
    (1000, 0, 0, 0, 0, 0), filtered state at zero. *)
Example end_to_end :
  let s := main_loop_poll arm_eabi no_callbacks push
             (motion_mpu6050_hand_interrupt power_on) in
  aa s = Vec 250 0 0 /\ gv s = Vec 0 0 0 /\ mpuHandInterrupt s = false /\
  trace s
  = [mpuHand getMotion6;
     send_keyglove_packet KG_PACKET_TYPE_EVENT 15 KG_PACKET_CLASS_MOTION
       KG_PACKET_ID_EVT_MOTION_DATA
       [0; 3; 12; 250; 0; 0; 0; 0; 0; 0; 0; 0; 0; 0; 0]].
Proof. repeat split; reflexivity. Qed.

(** * Part III: further properties of the functions *)

(** ** The filter step, in integers *)

Lemma quot_step_fixed_iff (prev raw_ : Z) :
  Z.quot (3 * prev + raw_) 4 = prev <->
  (0 <= prev /\ 0 <= raw_ - prev <= 3) \/ (prev <= 0 /\ -3 <= raw_ - prev <= 0).
Proof. Z.quot_rem_to_equations. lia. Qed.

Lemma quot_step_opp (prev raw_ : Z) :
  Z.quot (3 * - prev + - raw_) 4 = - Z.quot (3 * prev + raw_) 4.
Proof.
  replace (3 * - prev + - raw_) with (- (3 * prev + raw_)) by lia.
  apply Z.quot_opp_l. lia.
Qed.

Lemma quot_step_mono (prev prev' raw_ raw' : Z) :
  prev <= prev' -> raw_ <= raw' ->
  Z.quot (3 * prev + raw_) 4 <= Z.quot (3 * prev' + raw') 4.
Proof. intros. Z.quot_rem_to_equations. lia. Qed.

Lemma quot_step_contract (prev raw_ : Z) :
  4 * (Z.abs (raw_ - Z.quot (3 * prev + raw_) 4) - 3)
  <= 3 * (Z.abs (raw_ - prev) - 3).
Proof. Z.quot_rem_to_equations. lia. Qed.

Lemma quot_step_toward_zero (prev raw_ : Z) :
  between 0 raw_ prev ->
  between 0 raw_ (Z.quot (3 * prev + raw_) 4) /\
  Z.abs (raw_ - Z.quot (3 * prev + raw_) 4) <= Z.max 0 (Z.abs (raw_ - prev) - 1).
Proof. unfold between. intros. Z.quot_rem_to_equations. lia. Qed.

(** ** Where the filter stops, its symmetry and its order *)

(** X1. An update leaves the filtered value of an axis as it was exactly
    when the raw value is at most 3 counts further from zero than it, or
    equal to it: from below for a value at or above zero, from above for a
    value at or below zero. *)
Theorem update_fixed_iff (P : platform) (cb : callbacks) (r : motion6)
    (s : state) (a : axis) :
  platform_ok P -> motion6_ok r -> state_ok s ->
  int_sub_defined P (sample a r) (filtered a s) ->
  (filtered a (update_motion_mpu6050_hand P cb r s) = filtered a s <->
   (0 <= filtered a s /\ 0 <= sample a r - filtered a s <= 3) \/
   (filtered a s <= 0 /\ -3 <= sample a r - filtered a s <= 0)).
Proof.
  intros HP Hr Hs Hsub.
  rewrite update_filtered, (smooth_quot P HP);
    [apply quot_step_fixed_iff | apply filtered_in_int16, Hs
    | apply sample_in_int16, Hr | exact Hsub].
Qed.

Lemma update_fixed_iff_witness :
  filtered AX (update_motion_mpu6050_hand avr no_callbacks shake at_rest_from_40)
  = filtered AX at_rest_from_40 <->
  (0 <= filtered AX at_rest_from_40 /\
   0 <= sample AX shake - filtered AX at_rest_from_40 <= 3) \/
  (filtered AX at_rest_from_40 <= 0 /\
   -3 <= sample AX shake - filtered AX at_rest_from_40 <= 0).
Proof.
  apply (update_fixed_iff avr no_callbacks shake at_rest_from_40 AX).
  - unfold platform_ok; simpl; lia.
  - unfold motion6_ok, in_int16; simpl; lia.
  - unfold state_ok, vec_ok, in_int16; simpl; lia.
  - unfold int_sub_defined; simpl; lia.
Defined.

(** X2. The filter statement is odd: negating the filtered value and the
    raw value negates the result, the fraction being discarded toward zero
    on both sides. *)
Theorem smooth_opp (P : platform) (prev raw_ : Z) :
  platform_ok P ->
  in_int16 prev -> in_int16 (- prev) -> in_int16 raw_ -> in_int16 (- raw_) ->
  int_sub_defined P raw_ prev -> int_sub_defined P (- raw_) (- prev) ->
  smooth P (- prev) (- raw_) = - smooth P prev raw_.
Proof.
  intros HP Hp Hp' Hr Hr' Hd Hd'.
  rewrite !(smooth_quot P HP) by assumption. apply quot_step_opp.
Qed.

Lemma smooth_opp_witness : smooth avr (- 7) (- 0) = - smooth avr 7 0.
Proof.
  apply (smooth_opp avr 7 0);
    first [unfold platform_ok; simpl; lia | unfold in_int16; lia
          | unfold int_sub_defined; simpl; lia].
Defined.

(** X3. Where both differences [raw - filtered] are [int]s, the filter
    statement keeps the order: a larger filtered value or a larger raw
    value never gives a smaller result. *)
Theorem smooth_monotone (P : platform) (prev prev' raw_ raw' : Z) :
  platform_ok P ->
  in_int16 prev -> in_int16 prev' -> in_int16 raw_ -> in_int16 raw' ->
  int_sub_defined P raw_ prev -> int_sub_defined P raw' prev' ->
  prev <= prev' -> raw_ <= raw' ->
  smooth P prev raw_ <= smooth P prev' raw'.
Proof.
  intros HP Hp Hp' Hr Hr' Hd Hd' Lp Lr.
  rewrite !(smooth_quot P HP) by assumption. apply quot_step_mono; assumption.
Qed.

Lemma smooth_monotone_witness : smooth avr (-5) 100 <= smooth avr 5 101.
Proof.
  apply (smooth_monotone avr (-5) 5 100 101);
    first [unfold platform_ok; simpl; lia | unfold in_int16; lia
          | unfold int_sub_defined; simpl; lia | lia].
Defined.

(** ** The rate of the filter under a constant reading *)

(** X4. Where the first difference [raw - filtered] is an [int], with the
    reading held constant the distance of the filtered value to the raw
    value, less 3, shrinks by the factor 3/4 at every update at least:
    after [n] updates it is at most (3/4)^n times what it was. *)
Theorem hold_geometric (P : platform) (cb : callbacks) (r : motion6) (s : state)
    (a : axis) (n : nat) :
  platform_ok P -> motion6_ok r -> state_ok s ->
  int_sub_defined P (sample a r) (filtered a s) ->
  4 ^ Z.of_nat n * (Z.abs (sample a r - filtered a (hold P cb n r s)) - 3)
  <= 3 ^ Z.of_nat n * (Z.abs (sample a r - filtered a s) - 3).
Proof.
  intros HP Hr Hs Hsub. induction n as [|n IH].
  - cbn [hold]. simpl. lia.
  - rewrite Nat2Z.inj_succ, !Z.pow_succ_r by lia.
    rewrite (hold_step P cb HP) by assumption.
    pose proof (quot_step_contract (filtered a (hold P cb n r s)) (sample a r)) as C.
    assert (0 < 4 ^ Z.of_nat n) by (apply Z.pow_pos_nonneg; lia).
    set (e1 := Z.abs (sample a r
                      - Z.quot (3 * filtered a (hold P cb n r s) + sample a r) 4) - 3) in *.
    set (e0 := Z.abs (sample a r - filtered a (hold P cb n r s)) - 3) in *.
    apply Z.le_trans with (3 * (4 ^ Z.of_nat n * e0)).
    + replace (4 * 4 ^ Z.of_nat n * e1) with (4 ^ Z.of_nat n * (4 * e1)) by ring.
      replace (3 * (4 ^ Z.of_nat n * e0)) with (4 ^ Z.of_nat n * (3 * e0)) by ring.
      apply Z.mul_le_mono_nonneg_l; lia.
    + rewrite <- Z.mul_assoc. apply Z.mul_le_mono_nonneg_l; [lia | exact IH].
Qed.

Lemma hold_geometric_witness :
  4 ^ Z.of_nat 5
  * (Z.abs (sample AX push - filtered AX (hold avr no_callbacks 5 push power_on)) - 3)
  <= 3 ^ Z.of_nat 5 * (Z.abs (sample AX push - filtered AX power_on) - 3).
Proof.
  apply (hold_geometric avr no_callbacks push power_on AX 5).
  - unfold platform_ok; simpl; lia.
  - unfold motion6_ok, in_int16; simpl; lia.
  - unfold state_ok, vec_ok, in_int16; simpl; lia.
  - unfold int_sub_defined; simpl; lia.
Defined.

Section Settle.
Variable P : platform.
Variable cb : callbacks.
Hypothesis P_ok : platform_ok P.

Lemma hold_toward_zero (n : nat) (r : motion6) (s : state) (a : axis) :
  motion6_ok r -> state_ok s ->
  int_sub_defined P (sample a r) (filtered a s) ->
  between 0 (sample a r) (filtered a s) ->
  between 0 (sample a r) (filtered a (hold P cb n r s)) /\
  Z.abs (sample a r - filtered a (hold P cb n r s))
  <= Z.max 0 (Z.abs (sample a r - filtered a s) - Z.of_nat n).
Proof.
  intros Hr Hs Hsub Hb. induction n as [|n [IHb IHd]].
  - cbn [hold]. split; [exact Hb | lia].
  - rewrite (hold_step P cb P_ok) by assumption.
    destruct (quot_step_toward_zero _ _ IHb) as [Qb Qd].
    split; [exact Qb | lia].
Qed.

End Settle.

(** X5. When the raw value held lies between zero and the filtered value,
    the filter reaches it exactly: every update that has not reached it
    brings the filtered value at least one count closer, so after as many
    updates as the first distance the filtered value is the raw value and
    stays there. With the sensor at rest on an axis the filtered value
    returns to 0. *)
Theorem hold_settles (P : platform) (cb : callbacks) (r : motion6) (s : state)
    (a : axis) (n : nat) :
  platform_ok P -> motion6_ok r -> state_ok s ->
  int_sub_defined P (sample a r) (filtered a s) ->
  between 0 (sample a r) (filtered a s) ->
  Z.abs (sample a r - filtered a s) <= Z.of_nat n ->
  filtered a (hold P cb n r s) = sample a r.
Proof.
  intros HP Hr Hs Hsub Hb Hn.
  destruct (hold_toward_zero P cb HP n r s a Hr Hs Hsub Hb) as [_ Hd]. lia.
Qed.

Lemma hold_settles_witness :
  filtered AY (hold avr no_callbacks 40 still at_rest_from_40) = sample AY still.
Proof.
  apply (hold_settles avr no_callbacks still at_rest_from_40 AY 40).
  - unfold platform_ok; simpl; lia.
  - unfold motion6_ok, in_int16; simpl; lia.
  - unfold state_ok, vec_ok, in_int16; simpl; lia.
  - unfold int_sub_defined; simpl; lia.
  - unfold between; simpl; lia.
  - simpl; lia.
Defined.

(** ** The same values on every target *)

(** X6. Two targets that meet [platform_ok], whatever the width of their
    [int] and the format of their [double], leave the same state after an
    update, packet included, when the six differences are [int]s on both. *)
Theorem update_same_on_targets (P1 P2 : platform) (cb : callbacks) (r : motion6)
    (s : state) :
  platform_ok P1 -> platform_ok P2 -> motion6_ok r -> state_ok s ->
  (forall a, int_sub_defined P1 (sample a r) (filtered a s)) ->
  (forall a, int_sub_defined P2 (sample a r) (filtered a s)) ->
  update_motion_mpu6050_hand P1 cb r s = update_motion_mpu6050_hand P2 cb r s.
Proof.
  intros H1 H2 Hr Hs D1 D2.
  assert (E : forall a, smooth P1 (filtered a s) (sample a r)
                        = smooth P2 (filtered a s) (sample a r)).
  { intro a.
    rewrite (smooth_quot P1 H1), (smooth_quot P2 H2);
      auto using filtered_in_int16, sample_in_int16. }
  assert (Ea : next_aa P1 r s = next_aa P2 r s).
  { generalize (E AX) (E AY) (E AZ). unfold filtered, sample, next_aa.
    intros -> -> ->. reflexivity. }
  assert (Eg : next_gv P1 r s = next_gv P2 r s).
  { generalize (E GX) (E GY) (E GZ). unfold filtered, sample, next_gv.
    intros -> -> ->. reflexivity. }
  rewrite !update_equation, Ea, Eg. reflexivity.
Qed.

Lemma update_same_on_targets_witness :
  update_motion_mpu6050_hand avr observing shake at_rest_from_40
  = update_motion_mpu6050_hand arm_eabi observing shake at_rest_from_40.
Proof.
  apply (update_same_on_targets avr arm_eabi observing shake at_rest_from_40).
  - unfold platform_ok; simpl; lia.
  - unfold platform_ok; simpl; lia.
  - unfold motion6_ok, in_int16; simpl; lia.
  - unfold state_ok, vec_ok, in_int16; simpl; lia.
  - intro a; destruct a; unfold int_sub_defined; simpl; lia.
  - intro a; destruct a; unfold int_sub_defined; simpl; lia.
Defined.

(** ** From the filter to the wire *)

Lemma motion_data_payload_in_uint8 (a g : VectorInt16) :
  Forall in_uint8 (motion_data_payload a g).
Proof.
  unfold motion_data_payload.
  repeat (apply Forall_cons; [first [apply to_uint8_range | unfold in_uint8; lia]|]).
  apply Forall_nil.
Qed.

Lemma decode_motion_data_payload (a g : VectorInt16) :
  vec_ok a -> vec_ok g ->
  decode_motion_data (motion_data_payload a g) = Some (a, g).
Proof.
  intros (Hax & Hay & Haz) (Hgx & Hgy & Hgz).
  rewrite motion_data_payload_bytes. cbn [app le_bytes decode_motion_data].
  rewrite !le_int16_bytes by assumption.
  destruct a, g; reflexivity.
Qed.

(** X7. Whatever the state and the reading, the payload an update builds
    reads back, as little-endian signed 16-bit integers, as the filtered
    vectors the update has left in the state. Without a data callback the
    calls of the update are the burst read and the packet with that
    payload. With one, the callback is called right after the read, with
    0, 3, 12 and the 12 data bytes of that payload; what is sent after a
    callback that writes through the pointer it is given is not stated. *)
Theorem update_payload_is_state (P : platform) (cb : callbacks) (r : motion6)
    (s : state) :
  decode_motion_data
    (motion_data_payload (aa (update_motion_mpu6050_hand P cb r s))
       (gv (update_motion_mpu6050_hand P cb r s)))
  = Some (aa (update_motion_mpu6050_hand P cb r s),
          gv (update_motion_mpu6050_hand P cb r s)) /\
  (kg_evt_motion_data cb = None ->
   trace (update_motion_mpu6050_hand P cb r s)
   = trace s
       ++ [mpuHand getMotion6;
           send_keyglove_packet KG_PACKET_TYPE_EVENT 15 KG_PACKET_CLASS_MOTION
             KG_PACKET_ID_EVT_MOTION_DATA
             (motion_data_payload (aa (update_motion_mpu6050_hand P cb r s))
                (gv (update_motion_mpu6050_hand P cb r s)))]) /\
  (forall f, kg_evt_motion_data cb = Some f ->
   firstn 2 (skipn (length (trace s)) (trace (update_motion_mpu6050_hand P cb r s)))
   = [mpuHand getMotion6;
      call_kg_evt_motion_data 0 3 12
        (skipn 3 (motion_data_payload (aa (update_motion_mpu6050_hand P cb r s))
                    (gv (update_motion_mpu6050_hand P cb r s))))]).
Proof.
  destruct (update_state_ok P cb r s) as [Ha Hg].
  split; [apply decode_motion_data_payload; assumption|].
  destruct (update_aa_gv P cb r s) as [-> ->]. rewrite update_trace.
  unfold motion_data_event, gate, motion_data_packet. split.
  - intros ->. reflexivity.
  - intros f ->. rewrite skipn_app, skipn_all, Nat.sub_diag. reflexivity.
Qed.

Lemma update_payload_is_state_witness :
  trace (update_motion_mpu6050_hand avr no_callbacks shake at_rest_from_40)
  = trace at_rest_from_40
      ++ [mpuHand getMotion6;
          send_keyglove_packet KG_PACKET_TYPE_EVENT 15 KG_PACKET_CLASS_MOTION
            KG_PACKET_ID_EVT_MOTION_DATA
            (motion_data_payload
               (aa (update_motion_mpu6050_hand avr no_callbacks shake at_rest_from_40))
               (gv (update_motion_mpu6050_hand avr no_callbacks shake at_rest_from_40)))].
Proof.
  destruct (update_payload_is_state avr no_callbacks shake at_rest_from_40)
    as (_ & H & _).
  apply H. reflexivity.
Defined.

(** X15. The payload determines the filtered vectors: two pairs of vectors
    of 16-bit values with the same payload are the same. *)
Theorem motion_data_payload_injective (a g a' g' : VectorInt16) :
  vec_ok a -> vec_ok g -> vec_ok a' -> vec_ok g' ->
  motion_data_payload a g = motion_data_payload a' g' ->
  a = a' /\ g = g'.
Proof.
  intros Ha Hg Ha' Hg' E.
  pose proof (decode_motion_data_payload a g Ha Hg) as D.
  rewrite E, (decode_motion_data_payload a' g' Ha' Hg') in D.
  injection D as -> ->. split; reflexivity.
Qed.

Lemma motion_data_payload_injective_witness :
  Vec 1 (-1) 300 = Vec 1 (-1) 300 /\ Vec (-300) 0 32767 = Vec (-300) 0 32767.
Proof.
  apply (motion_data_payload_injective (Vec 1 (-1) 300) (Vec (-300) 0 32767)
           (Vec 1 (-1) 300) (Vec (-300) 0 32767));
    first [reflexivity | unfold vec_ok, in_int16; simpl; lia].
Defined.

(** ** What an event does not depend on *)

(** X8. Neither event depends on the value [skipPacket] had before the
    call: an update, and a mode change outside a binary command, leave the
    same state whatever it was, so that a veto of an earlier event never
    suppresses a later packet. The motion-data event does not depend on
    [inBinPacket] either: an update does the same with the flag set or
    clear, and leaves the flag as it was. *)
Theorem events_ignore_stale_flags (P : platform) (cb : callbacks) (r : motion6)
    (mode v : Z) (b : bool) (s : state) :
  update_motion_mpu6050_hand P cb r (set_skipPacket v s)
  = update_motion_mpu6050_hand P cb r s /\
  (inBinPacket s = false ->
   motion_set_mpu6050_hand_mode cb mode (set_skipPacket v s)
   = motion_set_mpu6050_hand_mode cb mode s) /\
  update_motion_mpu6050_hand P cb r (set_inBinPacket b s)
  = set_inBinPacket b (update_motion_mpu6050_hand P cb r s).
Proof.
  split; [|split].
  - rewrite !update_equation. reflexivity.
  - intro H. rewrite !set_mode_equation.
    cbn [set_skipPacket inBinPacket mpuHandInterrupt aaRaw aa aa0 gvRaw gv gv0
         skipPacket trace].
    rewrite H. reflexivity.
  - rewrite !update_equation. reflexivity.
Qed.

Lemma events_ignore_stale_flags_witness :
  motion_set_mpu6050_hand_mode observing 1 (set_skipPacket 1 power_on)
  = motion_set_mpu6050_hand_mode observing 1 power_on.
Proof.
  destruct (events_ignore_stale_flags arm_eabi observing still 1 1 true power_on)
    as (_ & H & _).
  apply H. reflexivity.
Defined.

(** X14. The mode function keeps no record of the mode: every call outside
    a binary command builds its event, also when the mode is the one set
    before. Two calls in a row hand the transport the packets of both, each
    gated by the callback's answer to its own event. *)
Theorem set_mode_twice (cb : callbacks) (m1 m2 : Z) (s : state) :
  inBinPacket s = false ->
  sent (trace (motion_set_mpu6050_hand_mode cb m2
                 (motion_set_mpu6050_hand_mode cb m1 s)))
  = sent (trace s)
      ++ gate (motion_mode_answer cb m1) (motion_mode_packet m1)
      ++ gate (motion_mode_answer cb m2) (motion_mode_packet m2).
Proof.
  intro H. rewrite !set_mode_sent.
  replace (inBinPacket (motion_set_mpu6050_hand_mode cb m1 s)) with false
    by (rewrite set_mode_equation; cbn [inBinPacket]; symmetry; exact H).
  rewrite H, <- app_assoc. reflexivity.
Qed.

Lemma set_mode_twice_witness :
  sent (trace (motion_set_mpu6050_hand_mode no_callbacks 1
                 (motion_set_mpu6050_hand_mode no_callbacks 1 power_on)))
  = sent (trace power_on)
      ++ gate (motion_mode_answer no_callbacks 1) (motion_mode_packet 1)
      ++ gate (motion_mode_answer no_callbacks 1) (motion_mode_packet 1).
Proof. apply (set_mode_twice no_callbacks 1 1 power_on). reflexivity. Defined.

(** ** Setup and the interrupt handler *)

Lemma setup_equation (s : state) :
  setup_motion_mpu6050_hand s
  = State false (aaRaw s) (aa s) (aa0 s) (gvRaw s) (gv s) (gv0 s)
      (skipPacket s) (inBinPacket s) (trace s ++ setup_calls).
Proof.
  destruct s as [latch ar a a0 gr g g0 skip replay tr].
  cbv beta iota zeta delta
    [setup_motion_mpu6050_hand setup_calls emit set_mpuHandInterrupt
     mpuHandInterrupt aaRaw aa aa0 gvRaw gv gv0 skipPacket inBinPacket trace].
  repeat rewrite <- app_assoc. reflexivity.
Qed.

Lemma setup_reads (s : state) :
  reads (trace (setup_motion_mpu6050_hand s)) = reads (trace s).
Proof. rewrite setup_equation. cbn [trace]. rewrite reads_app. cbn. lia. Qed.

Lemma setup_sent (s : state) :
  sent (trace (setup_motion_mpu6050_hand s)) = sent (trace s).
Proof. rewrite setup_equation. cbn [trace]. rewrite sent_app. apply app_nil_r. Qed.

(** X13. Setup can run at any time: it clears the latch, so that an
    interrupt taken before it is dropped, leaves the six vectors and the
    two flags of the protocol layer as they are, makes its twelve
    configuration calls and no other: no burst read, no packet, and neither
    the attachment of the interrupt nor the wake-up of the sensor, which
    are left to the mode function. *)
Theorem setup_only_configures (s : state) :
  mpuHandInterrupt (setup_motion_mpu6050_hand (motion_mpu6050_hand_interrupt s))
  = false /\
  (forall a, filtered a (setup_motion_mpu6050_hand s) = filtered a s /\
             shadow a (setup_motion_mpu6050_hand s) = shadow a s /\
             raw a (setup_motion_mpu6050_hand s) = raw a s) /\
  skipPacket (setup_motion_mpu6050_hand s) = skipPacket s /\
  inBinPacket (setup_motion_mpu6050_hand s) = inBinPacket s /\
  reads (trace (setup_motion_mpu6050_hand s)) = reads (trace s) /\
  sent (trace (setup_motion_mpu6050_hand s)) = sent (trace s) /\
  length (trace (setup_motion_mpu6050_hand s)) = (length (trace s) + 12)%nat /\
  ~ In attachInterrupt_FUSION_FALLING (skipn (length (trace s))
                                         (trace (setup_motion_mpu6050_hand s))) /\
  (forall b, ~ In (mpuHand (setSleepEnabled b))
               (skipn (length (trace s)) (trace (setup_motion_mpu6050_hand s)))).
Proof.
  rewrite !setup_equation. cbn [mpuHandInterrupt skipPacket inBinPacket trace].
  assert (K : skipn (length (trace s)) (trace s ++ setup_calls) = setup_calls).
  { rewrite skipn_app, skipn_all, Nat.sub_diag. reflexivity. }
  rewrite K.
  split; [reflexivity|]. split; [intro a; destruct a; repeat split|].
  split; [reflexivity|]. split; [reflexivity|]. split.
  { rewrite reads_app. cbn. lia. }
  split.
  { rewrite sent_app. apply app_nil_r. }
  split.
  { rewrite length_app. reflexivity. }
  split.
  - unfold setup_calls. cbn [In]. intuition discriminate.
  - intro b. unfold setup_calls. cbn [In]. intuition discriminate.
Qed.

(** X12. The handler does nothing but set the latch: it makes no call and
    touches no vector, and any number of interrupts before the latch is
    next cleared leave the state one interrupt leaves; interrupts are not
    counted. *)
Theorem interrupts_collapse (n : nat) (s : state) :
  Nat.iter (S n) motion_mpu6050_hand_interrupt s = motion_mpu6050_hand_interrupt s /\
  trace (motion_mpu6050_hand_interrupt s) = trace s /\
  (forall a, filtered a (motion_mpu6050_hand_interrupt s) = filtered a s /\
             shadow a (motion_mpu6050_hand_interrupt s) = shadow a s /\
             raw a (motion_mpu6050_hand_interrupt s) = raw a s) /\
  skipPacket (motion_mpu6050_hand_interrupt s) = skipPacket s /\
  inBinPacket (motion_mpu6050_hand_interrupt s) = inBinPacket s.
Proof.
  split.
  - induction n as [|n IH]; [reflexivity|].
    rewrite Nat.iter_succ, IH. reflexivity.
  - repeat split.
Qed.

(** ** Invariants of every sequence of calls *)

Lemma set_mode_reads (cb : callbacks) (mode : Z) (s : state) :
  reads (trace (motion_set_mpu6050_hand_mode cb mode s)) = reads (trace s).
Proof.
  rewrite set_mode_trace, !reads_app.
  assert (H1 : reads (mode_hardware mode) = 0%nat)
    by (unfold mode_hardware; destruct (truthy mode); reflexivity).
  assert (H2 : reads (if inBinPacket s then [] else motion_mode_event cb mode) = 0%nat).
  { destruct (inBinPacket s); [reflexivity|].
    unfold motion_mode_event, gate, motion_mode_packet.
    destruct (kg_evt_motion_mode cb) as [f|]; [|reflexivity].
    destruct (truthy _); reflexivity. }
  rewrite H1, H2. lia.
Qed.

Lemma set_mode_sent_length (cb : callbacks) (mode : Z) (s : state) :
  (length (sent (trace (motion_set_mpu6050_hand_mode cb mode s)))
   <= S (length (sent (trace s))))%nat.
Proof.
  rewrite set_mode_sent, length_app. unfold gate.
  destruct (inBinPacket s); [cbn; lia|].
  destruct (motion_mode_answer cb mode) as [v|]; [destruct (truthy v)|]; cbn; lia.
Qed.

Lemma run_cons (P : platform) (cb : callbacks) (c : call) (cs : list call)
    (s : state) :
  run P cb (c :: cs) s = run P cb cs (exec P cb c s).
Proof. reflexivity. Qed.

Lemma exec_Update (P : platform) (cb : callbacks) (r : motion6) (s : state) :
  exec P cb (Update r) s = update_motion_mpu6050_hand P cb r s.
Proof. reflexivity. Qed.

Lemma exec_SetMode (P : platform) (cb : callbacks) (mode : Z) (s : state) :
  exec P cb (SetMode mode) s = motion_set_mpu6050_hand_mode cb mode s.
Proof. reflexivity. Qed.

Lemma exec_Setup (P : platform) (cb : callbacks) (s : state) :
  exec P cb Setup s = setup_motion_mpu6050_hand s.
Proof. reflexivity. Qed.

Lemma exec_Interrupt (P : platform) (cb : callbacks) (s : state) :
  exec P cb Interrupt s = motion_mpu6050_hand_interrupt s.
Proof. reflexivity. Qed.

(** X10. Over any sequence of calls there is exactly one burst read for
    each update and none besides, and at most one packet for each update
    and each mode change: the interrupt handler and the setup cause
    neither. *)
Theorem run_accounting (P : platform) (cb : callbacks) (cs : list call) (s : state) :
  reads (trace (run P cb cs s))
  = (reads (trace s) + length (filter is_update cs))%nat /\
  (length (sent (trace (run P cb cs s)))
   <= length (sent (trace s)) + length (filter is_update cs)
      + length (filter is_set_mode cs))%nat.
Proof.
  revert s. induction cs as [|c cs IH]; intro s.
  - cbn [run filter length]. lia.
  - rewrite run_cons.
    destruct c; rewrite ?exec_Update, ?exec_SetMode, ?exec_Setup, ?exec_Interrupt;
      cbn [filter is_update is_set_mode length].
    + destruct (IH (motion_mpu6050_hand_interrupt s)) as [IHr IHs].
      change (trace (motion_mpu6050_hand_interrupt s)) with (trace s) in IHr, IHs.
      split; assumption.
    + destruct (IH (motion_set_mpu6050_hand_mode cb mode s)) as [IHr IHs].
      rewrite set_mode_reads in IHr.
      pose proof (set_mode_sent_length cb mode s). split; lia.
    + destruct (IH (setup_motion_mpu6050_hand s)) as [IHr IHs].
      rewrite setup_reads in IHr. rewrite setup_sent in IHs. split; lia.
    + destruct (IH (update_motion_mpu6050_hand P cb r s)) as [IHr IHs].
      rewrite update_reads in IHr.
      pose proof (update_sent_length P cb r s). split; lia.
Qed.

Lemma packet_ok_mode_event (cb : callbacks) (mode : Z) :
  in_uint8 mode -> Forall packet_ok (motion_mode_event cb mode).
Proof.
  intro H.
  assert (K : packet_ok (motion_mode_packet mode)).
  { unfold motion_mode_packet, packet_ok. cbn [length nth].
    repeat split; try reflexivity.
    repeat (apply Forall_cons; [first [exact H | unfold in_uint8; lia]|]).
    apply Forall_nil. }
  unfold motion_mode_event, gate.
  destruct (kg_evt_motion_mode cb) as [f|].
  - apply Forall_cons; [exact I|].
    destruct (truthy (f 0 mode)); [apply Forall_nil|].
    apply Forall_cons; [exact K | apply Forall_nil].
  - apply Forall_cons; [exact K | apply Forall_nil].
Qed.

Lemma packet_ok_data_event (cb : callbacks) (a g : VectorInt16) :
  Forall packet_ok (motion_data_event cb (motion_data_payload a g)).
Proof.
  assert (K : packet_ok (motion_data_packet (motion_data_payload a g))).
  { unfold motion_data_packet, packet_ok.
    split; [reflexivity|]. split; [apply motion_data_payload_in_uint8|].
    split; reflexivity. }
  unfold motion_data_event, gate.
  destruct (kg_evt_motion_data cb) as [f|].
  - apply Forall_cons; [exact I|].
    destruct (truthy _); [apply Forall_nil|].
    apply Forall_cons; [exact K | apply Forall_nil].
  - apply Forall_cons; [exact K | apply Forall_nil].
Qed.

Lemma exec_packet_ok (P : platform) (cb : callbacks) (c : call) (s : state) :
  call_ok c -> Forall packet_ok (trace s) -> Forall packet_ok (trace (exec P cb c s)).
Proof.
  intros Hc Hs. destruct c; cbn [exec call_ok] in *.
  - exact Hs.
  - rewrite set_mode_trace. apply Forall_app. split; [exact Hs|].
    apply Forall_app. split.
    + unfold mode_hardware. destruct (truthy mode);
        repeat (apply Forall_cons; [exact I|]); apply Forall_nil.
    + destruct (inBinPacket s); [apply Forall_nil|].
      apply packet_ok_mode_event, Hc.
  - rewrite setup_equation. cbn [trace]. apply Forall_app. split; [exact Hs|].
    unfold setup_calls. repeat (apply Forall_cons; [exact I|]). apply Forall_nil.
  - rewrite update_trace. apply Forall_app. split; [exact Hs|].
    apply Forall_cons; [exact I | apply packet_ok_data_event].
Qed.

(** X9. Every packet any sequence of calls hands to the transport is well
    formed: the length passed is the length of the payload, the payload is
    made of bytes, a mode packet has 2 bytes of which the first is 0, and a
    data packet has 15 bytes that start with 0, 3, 12. The modes passed are
    bytes. *)
Theorem run_packets_ok (P : platform) (cb : callbacks) (cs : list call) (s : state) :
  Forall call_ok cs -> Forall packet_ok (trace s) ->
  Forall packet_ok (trace (run P cb cs s)).
Proof.
  revert s. induction cs as [|c cs IH]; intros s Hcs Hs; [exact Hs|].
  cbn [run]. inversion Hcs as [|c' cs' Hc Hrest]; subst.
  apply IH; [exact Hrest | apply exec_packet_ok; assumption].
Qed.

Lemma a_session_ok : Forall call_ok a_session.
Proof.
  unfold a_session.
  repeat (apply Forall_cons;
          [first [exact I | unfold call_ok, in_uint8; lia
                 | unfold call_ok, motion6_ok, in_int16; simpl; lia]|]).
  apply Forall_nil.
Defined.

Lemma run_packets_ok_witness :
  Forall packet_ok (trace (run avr observing a_session power_on)).
Proof.
  apply (run_packets_ok avr observing a_session power_on).
  - exact a_session_ok.
  - apply Forall_nil.
Defined.

Lemma exec_vectors_ok (P : platform) (cb : callbacks) (c : call) (s : state) :
  call_ok c -> vectors_ok s -> vectors_ok (exec P cb c s).
Proof.
  intros Hc (Har & Ha & Ha0 & Hgr & Hg & Hg0). destruct c; cbn [exec call_ok] in *.
  - exact (conj Har (conj Ha (conj Ha0 (conj Hgr (conj Hg Hg0))))).
  - rewrite set_mode_equation. unfold vectors_ok. cbn [aaRaw aa aa0 gvRaw gv gv0].
    assert (Z3 : vec_ok (Vec 0 0 0)) by (unfold vec_ok, in_int16; simpl; lia).
    destruct (truthy mode); tauto.
  - rewrite setup_equation. exact (conj Har (conj Ha (conj Ha0 (conj Hgr (conj Hg Hg0))))).
  - rewrite update_equation. unfold vectors_ok. cbn [aaRaw aa aa0 gvRaw gv gv0].
    destruct Hc as (? & ? & ? & ? & ? & ?).
    destruct Ha as (? & ? & ?), Hg as (? & ? & ?).
    pose proof (smooth_in_int16 P) as Sm.
    unfold vec_ok, next_aa, next_gv. cbn [x y z].
    repeat match goal with |- _ /\ _ => split end; assumption || apply Sm.
Qed.

(** The six vectors are [int16_t] fields: over any sequence of calls whose
    readings are 16-bit values they hold 16-bit values. *)
Theorem run_vectors_ok (P : platform) (cb : callbacks) (cs : list call) (s : state) :
  Forall call_ok cs -> vectors_ok s -> vectors_ok (run P cb cs s).
Proof.
  revert s. induction cs as [|c cs IH]; intros s Hcs Hs; [exact Hs|].
  cbn [run]. inversion Hcs as [|c' cs' Hc Hrest]; subst.
  apply IH; [exact Hrest | apply exec_vectors_ok; assumption].
Qed.

Lemma run_vectors_ok_witness : vectors_ok (run avr observing a_session power_on).
Proof.
  apply (run_vectors_ok avr observing a_session power_on).
  - exact a_session_ok.
  - unfold vectors_ok, vec_ok, in_int16; simpl; lia.
Defined.

(** X16. No sequence of calls rewrites what has been done or touches the
    flag of the protocol layer: the trace after it is the trace before it
    with the new calls appended, and [inBinPacket] is as it was. *)
Theorem run_appends (P : platform) (cb : callbacks) (cs : list call) (s : state) :
  (exists new, trace (run P cb cs s) = trace s ++ new) /\
  inBinPacket (run P cb cs s) = inBinPacket s.
Proof.
  revert s. induction cs as [|c cs IH]; intro s.
  - split; [exists []; symmetry; apply app_nil_r | reflexivity].
  - cbn [run]. destruct (IH (exec P cb c s)) as [[new Hn] Hb].
    rewrite Hn, Hb.
    destruct c; cbn [exec].
    + split; [exists new; reflexivity | reflexivity].
    + rewrite set_mode_equation. cbn [trace inBinPacket].
      split; [|reflexivity]. rewrite <- app_assoc. eexists. reflexivity.
    + rewrite setup_equation. cbn [trace inBinPacket].
      split; [|reflexivity]. rewrite <- app_assoc. eexists. reflexivity.
    + rewrite update_equation. cbn [trace inBinPacket].
      split; [|reflexivity]. rewrite <- app_assoc. eexists. reflexivity.
Qed.

(** ** The first update after enabling, and what an update reads *)

(** X17. On every target the first update after a change to a nonzero mode
    leaves, on each axis, a quarter of the reading with its fraction
    discarded toward zero, whatever the filtered state was before. *)
Theorem first_update_after_enable (P : platform) (cb : callbacks) (mode : Z)
    (r : motion6) (s : state) (a : axis) :
  platform_ok P -> motion6_ok r -> mode <> 0 ->
  filtered a (update_motion_mpu6050_hand P cb r
                (motion_set_mpu6050_hand_mode cb mode s))
  = Z.quot (sample a r) 4.
Proof.
  intros HP Hr Hm.
  destruct (set_mode_enabled cb mode s Hm) as (Ha & Hg & _).
  assert (Z0 : filtered a (motion_set_mpu6050_hand_mode cb mode s) = 0).
  { unfold filtered. rewrite Ha, Hg. destruct a; reflexivity. }
  pose proof (sample_in_int16 r a Hr) as Hv.
  rewrite update_filtered, Z0, (smooth_quot P HP).
  - f_equal.
  - unfold in_int16. lia.
  - exact Hv.
  - apply int_sub_defined_0; [apply HP | exact Hv].
Qed.

Lemma first_update_after_enable_witness :
  filtered GX (update_motion_mpu6050_hand avr no_callbacks shake
                 (motion_set_mpu6050_hand_mode no_callbacks 1 at_100))
  = Z.quot (sample GX shake) 4.
Proof.
  apply (first_update_after_enable avr no_callbacks 1 shake at_100 GX).
  - unfold platform_ok; simpl; lia.
  - unfold motion6_ok, in_int16; simpl; lia.
  - discriminate.
Defined.

(** X18. An update reads the filtered vectors only: what the raw vectors
    and the shadow vectors held before the call has no influence on the
    state it leaves. The memory of the filter from one call to the next
    is [aa] and [gv]; [aa0] and [gv0] are overwritten before they are
    read. *)
Theorem update_ignores_scratch (P : platform) (cb : callbacks) (r : motion6)
    (f f0 h h0 : VectorInt16 -> VectorInt16) (s : state) :
  update_motion_mpu6050_hand P cb r
    (set_aa0 f (set_gv0 f0 (set_aaRaw h (set_gvRaw h0 s))))
  = update_motion_mpu6050_hand P cb r s.
Proof. rewrite !update_equation. reflexivity. Qed.

(** ** Every update of every sequence, on a target with a wide [int] *)

Lemma run_app (P : platform) (cb : callbacks) (pre cs : list call) (s : state) :
  run P cb (pre ++ cs) s = run P cb cs (run P cb pre s).
Proof.
  revert s. induction pre as [|c pre IH]; intro s; [reflexivity|].
  rewrite <- app_comm_cons, !run_cons. apply IH.
Qed.

Lemma run_then_update (P : platform) (cb : callbacks) (pre : list call)
    (r : motion6) (s : state) :
  run P cb (pre ++ [Update r]) s = update_motion_mpu6050_hand P cb r (run P cb pre s).
Proof. rewrite run_app, run_cons, exec_Update. reflexivity. Qed.

Lemma exec_state_ok (P : platform) (cb : callbacks) (c : call) (s : state) :
  state_ok s -> state_ok (exec P cb c s).
Proof.
  intro H. destruct (state_ok_invariant P cb still 0 s) as (_ & _ & _ & Hi & Hs).
  destruct c; rewrite ?exec_Update, ?exec_SetMode, ?exec_Setup, ?exec_Interrupt.
  - apply Hi, H.
  - destruct (state_ok_invariant P cb still mode s) as (_ & _ & Hm & _). apply Hm, H.
  - apply Hs, H.
  - apply update_state_ok.
Qed.

Lemma run_state_ok (P : platform) (cb : callbacks) (cs : list call) (s : state) :
  state_ok s -> state_ok (run P cb cs s).
Proof.
  revert s. induction cs as [|c cs IH]; intros s H; [exact H|].
  rewrite run_cons. apply IH, exec_state_ok, H.
Qed.

(** The double of the filter statement, converted to an integer, before the
    store into the 16-bit field. *)
Lemma smooth_truncate_quot (P : platform) (prev raw_ : Z) :
  platform_ok P -> in_int16 prev -> in_int16 raw_ -> int_sub_defined P raw_ prev ->
  Double.truncate (smooth_double P prev raw_) = Z.quot (3 * prev + raw_) 4.
Proof.
  intros HP Hp Hr Hsub. rewrite (smooth_double_dyadic P HP) by assumption.
  destruct HP as (_ & Hprec & Hemax). unfold in_int16 in *.
  assert (Pw : 2 ^ 18 <= 2 ^ double_prec P) by (apply Z.pow_le_mono_r; lia).
  change (2 ^ 18) with 262144 in Pw.
  rewrite truncate_dyadic by (unfold Double.fits; lia).
  change (2 ^ (- -2)) with 4. f_equal. lia.
Qed.

(** X11. On a target whose [int] has 17 bits or more, every update of
    every sequence of calls, started from filtered vectors of 16-bit values
    and given a reading of 16-bit values, stores on each axis exactly
    [filtered_prev + 0.25 * (raw - filtered_prev)] with its fraction
    discarded toward zero. The integer the double converts to is that
    value itself and lies between the previous filtered value and the raw
    value, so the store into the 16-bit field never reduces it. *)
Theorem run_update_exact (P : platform) (cb : callbacks) (pre : list call)
    (r : motion6) (s : state) (a : axis) :
  platform_ok P -> 17 <= int_bits P -> motion6_ok r -> state_ok s ->
  filtered a (run P cb (pre ++ [Update r]) s)
  = Qtruncate (ema_spec (filtered a (run P cb pre s)) (sample a r)) /\
  Double.truncate (smooth_double P (filtered a (run P cb pre s)) (sample a r))
  = filtered a (run P cb (pre ++ [Update r]) s) /\
  between (filtered a (run P cb pre s))
    (Double.truncate (smooth_double P (filtered a (run P cb pre s)) (sample a r)))
    (sample a r).
Proof.
  intros HP Hw Hr Hs.
  pose proof (run_state_ok P cb pre s Hs) as Hpre.
  pose proof (filtered_in_int16 _ a Hpre) as Hf.
  pose proof (sample_in_int16 r a Hr) as Hv.
  pose proof (int_sub_defined_wide P _ _ Hw Hv Hf) as Hsub.
  rewrite run_then_update, update_filtered, Qtruncate_ema_spec.
  rewrite (smooth_quot P HP), (smooth_truncate_quot P) by assumption.
  split; [reflexivity|]. split; [reflexivity|]. apply quot_step_between.
Qed.

Lemma run_update_exact_witness :
  filtered AX (run arm_eabi observing (a_session ++ [Update swing_high]) swung_low)
  = Qtruncate (ema_spec (filtered AX (run arm_eabi observing a_session swung_low))
                 (sample AX swing_high)).
Proof.
  destruct (run_update_exact arm_eabi observing a_session swing_high swung_low AX)
    as (H & _).
  - unfold platform_ok; simpl; lia.
  - simpl; lia.
  - unfold motion6_ok, in_int16; simpl; lia.
  - unfold state_ok, vec_ok, in_int16; simpl; lia.
  - exact H.
Defined.

(** ** The filter on a target with a 16-bit [int] *)

(** C1. On a target whose [int] has 16 bits, as the AVR board the setup
    function names, the filter statement does not store
    [filtered_prev + 0.25 * (raw - filtered_prev)] at every update. With
    the filtered value at -20000 and a reading of 20000, both 16-bit
    values, the formula gives -10000, which a target with a 32-bit [int]
    stores; on 16 bits the difference 40000 is not an [int], comes out as
    -25536, and -26384 is stored. *)
Theorem update_filter_int16_overflow (cb : callbacks) :
  platform_ok avr /\ motion6_ok swing_high /\ state_ok swung_low /\
  filtered AX swung_low = -20000 /\ sample AX swing_high = 20000 /\
  Qtruncate (ema_spec (filtered AX swung_low) (sample AX swing_high)) = -10000 /\
  int_sub avr (sample AX swing_high) (filtered AX swung_low) = -25536 /\
  filtered AX (update_motion_mpu6050_hand avr cb swing_high swung_low) = -26384 /\
  filtered AX (update_motion_mpu6050_hand arm_eabi cb swing_high swung_low) = -10000.
Proof.
  split; [unfold platform_ok; simpl; lia|].
  split; [unfold motion6_ok, in_int16; simpl; lia|].
  split; [unfold state_ok, vec_ok, in_int16; simpl; lia|].
  rewrite !update_filtered. repeat split; reflexivity.
Qed.

(** C8. On a target whose [int] has 16 bits the filtered value does not
    always move toward a raw value held constant. From -20000 with the
    reading held at 20000 the first update stores -26384 and the second
    -31172: neither lies between the value before it and the raw value, and
    the distance to the raw value grows. *)
Theorem hold_int16_overflow (cb : callbacks) :
  platform_ok avr /\ motion6_ok swing_high /\ state_ok swung_low /\
  filtered AX (hold avr cb 0 swing_high swung_low) = -20000 /\
  filtered AX (hold avr cb 1 swing_high swung_low) = -26384 /\
  filtered AX (hold avr cb 2 swing_high swung_low) = -31172 /\
  ~ between (filtered AX (hold avr cb 0 swing_high swung_low))
      (filtered AX (hold avr cb 1 swing_high swung_low)) (sample AX swing_high) /\
  ~ between (filtered AX (hold avr cb 1 swing_high swung_low))
      (filtered AX (hold avr cb 2 swing_high swung_low)) (sample AX swing_high) /\
  Z.abs (sample AX swing_high - filtered AX (hold avr cb 0 swing_high swung_low))
  < Z.abs (sample AX swing_high - filtered AX (hold avr cb 1 swing_high swung_low)).
Proof.
  split; [unfold platform_ok; simpl; lia|].
  split; [unfold motion6_ok, in_int16; simpl; lia|].
  split; [unfold state_ok, vec_ok, in_int16; simpl; lia|].
  cbn [hold]. rewrite !update_filtered.
  change (filtered AX swung_low) with (-20000).
  change (sample AX swing_high) with 20000.
  assert (E1 : smooth avr (-20000) 20000 = -26384) by reflexivity.
  assert (E2 : smooth avr (-26384) 20000 = -31172) by reflexivity.
  rewrite E1, E2. unfold between. repeat split; lia.
Qed.
